(** * ostrich-swarm: the swarm coordinator's scheduling, device health and
    invite-token logic

    A shallow embedding of

      - [src/core/types.ts]             (the data model),
      - [src/managers/JobScheduler.ts]  (module [JobScheduler]),
      - [src/managers/AuthManager.ts]   (modules [AuthManager], [DeviceManager]),
      - [src/SwarmCoordinator.ts]       (module [SwarmCoordinator], the
        Durable Object that carries the same logic over a key-value store),
      - the Worker's [fetch] handler    (module [Worker]).

    Conventions.  A JavaScript [Map] is a [gmap]; an array is a [list].
    Counters, core counts and millisecond timestamps are integers ([Z]).
    Weights and scores, which the code divides and scales, are exact
    rationals ([Qc]): the development reasons about the arithmetic the
    program performs, not about the rounding of IEEE doubles.  [Date.now()]
    and [Math.random()] are inputs of the operations that read them. *)

From Stdlib Require Import Ascii ZArith QArith Qcanon Qround Lia.
From stdpp Require Import base option list strings gmap fin_maps.

Local Open Scope Z_scope.

(** ** Data model ([core/types.ts]) *)

Inductive DeviceType := DESKTOP | MOBILE | COLAB | SERVER.
Inductive JobType := MATH_STRESS | MAT_MUL | TEXT_TOKENIZE.
Inductive DeviceConnectionStatus := OFFLINE | ONLINE | BUSY | DISABLED | REGISTERED.

Global Instance DeviceType_eq_dec : EqDecision DeviceType.
Proof. solve_decision. Defined.
Global Instance JobType_eq_dec : EqDecision JobType.
Proof. solve_decision. Defined.
Global Instance DeviceConnectionStatus_eq_dec : EqDecision DeviceConnectionStatus.
Proof. solve_decision. Defined.

Record DeviceCapabilities := mkCaps {
  cpuCores : Z;
  memoryGB : Z;
  gpuAvailable : bool;
  gpuName : option string
}.

Record DeviceInfo := mkDevice {
  dev_id : string;
  dev_name : string;
  dev_type : DeviceType;
  status : DeviceConnectionStatus;
  capabilities : DeviceCapabilities;
  opsScore : Qc;
  totalJobsCompleted : Z;
  lastHeartbeat : Z;
  lastUserInteraction : option Z;
  swarmId : option string
}.

(** The payload of a job is [{ size }] for GPU tasks and [{ iterations }]
    for CPU tasks; the coordinator never looks inside it. *)
Inductive JobData := SizeData (size : Z) | IterationsData (iterations : Z).

Record Job := mkJob {
  job_id : string;
  job_type : JobType;
  complexity : Z;
  data : JobData
}.

Record DeviceJobQuota := mkQuota {
  deviceId : string;
  weight : Qc;
  activeJobs : Z;
  maxConcurrent : Z
}.

Record SwarmResources := mkResources {
  totalCores : Z;
  totalMemory : Z;
  totalGPUs : Z;
  onlineCount : Z
}.

Definition set_status (st : DeviceConnectionStatus) (d : DeviceInfo) : DeviceInfo :=
  mkDevice (dev_id d) (dev_name d) (dev_type d) st (capabilities d) (opsScore d)
           (totalJobsCompleted d) (lastHeartbeat d) (lastUserInteraction d) (swarmId d).

Definition set_lastHeartbeat (t : Z) (d : DeviceInfo) : DeviceInfo :=
  mkDevice (dev_id d) (dev_name d) (dev_type d) (status d) (capabilities d) (opsScore d)
           (totalJobsCompleted d) t (lastUserInteraction d) (swarmId d).

Definition set_lastUserInteraction (t : Z) (d : DeviceInfo) : DeviceInfo :=
  mkDevice (dev_id d) (dev_name d) (dev_type d) (status d) (capabilities d) (opsScore d)
           (totalJobsCompleted d) (lastHeartbeat d) (Some t) (swarmId d).

Definition set_opsScore (sc : Qc) (d : DeviceInfo) : DeviceInfo :=
  mkDevice (dev_id d) (dev_name d) (dev_type d) (status d) (capabilities d) sc
           (totalJobsCompleted d) (lastHeartbeat d) (lastUserInteraction d) (swarmId d).

Definition set_activeJobs (n : Z) (q : DeviceJobQuota) : DeviceJobQuota :=
  mkQuota (deviceId q) (weight q) n (maxConcurrent q).

Definition set_weight (w : Qc) (q : DeviceJobQuota) : DeviceJobQuota :=
  mkQuota (deviceId q) w (activeJobs q) (maxConcurrent q).

(** ** JavaScript idioms *)

(** [x || d] on a number: [0] is falsy. *)
Definition Z_or (x d : Z) : Z := if decide (x = 0) then d else x.
Definition Qc_or (x d : Qc) : Qc := if decide (x = Q2Qc 0) then d else x.

(** [m.get(k) || d]: [undefined] and [0] are both falsy. *)
Definition get_or (o : option Qc) (d : Qc) : Qc :=
  match o with Some x => Qc_or x d | None => d end.

Definition Qc_max (x y : Qc) : Qc := if decide (Qcle x y) then y else x.
Definition Qc_min (x y : Qc) : Qc := if decide (Qcle x y) then x else y.

(** [Math.floor]. *)
Definition Qc_floor (x : Qc) : Z := Qfloor (this x).

(** [Math.round]: the nearest integer, halves going up. *)
Definition Qc_round (x : Qc) : Z := Qc_floor (x + Q2Qc (1 # 2))%Qc.

(** [arr.findIndex(p)], with [None] for [-1]. *)
Fixpoint findIndex {A} (p : A → bool) (l : list A) : option nat :=
  match l with
  | [] => None
  | x :: l' => if p x then Some 0%nat else S <$> findIndex p l'
  end.

(** [s.toLowerCase()] on the ASCII letters and [s.includes(sub)]. *)
Definition lower_ascii (c : ascii) : ascii :=
  let n := nat_of_ascii c in
  if (65 <=? n)%nat && (n <=? 90)%nat then ascii_of_nat (n + 32) else c.

Fixpoint toLowerCase (s : string) : string :=
  match s with
  | EmptyString => EmptyString
  | String c s' => String (lower_ascii c) (toLowerCase s')
  end.

Fixpoint includes (s sub : string) : bool :=
  String.prefix sub s ||
  match s with
  | EmptyString => false
  | String _ s' => includes s' sub
  end.

(** The sum of the values of a weight map, as
    [Array.from(weights.values()).reduce((a, b) => a + b, 0)] computes it. *)
Definition sumWeights (ws : gmap string Qc) : Qc :=
  map_fold (λ _ b a, (a + b)%Qc) (Q2Qc 0) ws.

(** ** Code shared verbatim by [JobScheduler.ts] and [SwarmCoordinator.ts] *)

(** One round of the batch loop: look for the first job of
    the preferred type, fall back to index 0, and splice it out when the
    index is inside the queue. *)
Definition pickIndex (preferred : JobType) (queue : list Job) : nat :=
  default 0%nat (findIndex (λ j, bool_decide (job_type j = preferred)) queue).

Definition takeJob (preferred : JobType) (queue : list Job) : option (Job * list Job) :=
  let idx := pickIndex preferred queue in
  if decide (idx < length queue)%nat then
    (λ j, (j, delete idx queue)) <$> queue !! idx
  else None.

(** The [for] loop: [n] rounds over the queue, the batch built so far and
    the quota's [activeJobs] counter. *)
Fixpoint batchLoop (n : nat) (preferred : JobType)
    (queue batch : list Job) (active : Z) : list Job * list Job * Z :=
  match n with
  | O => (queue, batch, active)
  | S n' =>
      match takeJob preferred queue with
      | Some (j, queue') => batchLoop n' preferred queue' (batch ++ [j]) (active + 1)
      | None => batchLoop n' preferred queue batch active
      end
  end.

Definition preferredType (device : DeviceInfo) : JobType :=
  if gpuAvailable (capabilities device) then MAT_MUL else MATH_STRESS.

(** One random draw of [generateJobs]: the outcome of
    [Math.random() > 0.7], the generated identifier and the complexity. *)
Record Draw := mkDraw { isGpuTask : bool; draw_id : string; draw_complexity : Z }.

Definition jobOfDraw (d : Draw) : Job :=
  mkJob (draw_id d)
        (if isGpuTask d then MAT_MUL else MATH_STRESS)
        (draw_complexity d)
        (if isGpuTask d then SizeData 1024 else IterationsData 100000).

(** ** [JobScheduler.ts] *)

Module JobScheduler.

Record t := mk {
  jobQueue : list Job;
  deviceQuotas : gmap string DeviceJobQuota;
  deviceWeights : gmap string Qc;
  totalWeight : Qc
}.

Definition init : t := mk [] ∅ ∅ (Q2Qc 0).

Definition calculateWeight (device : DeviceInfo) : Qc :=
  let cpu := Qc_of_Z (Z_or (cpuCores (capabilities device)) 4 * 10) in
  let gpu := Qc_of_Z (if gpuAvailable (capabilities device) then 50 else 0) in
  let score := Qc_min (Qc_or (opsScore device) (Q2Qc 0) / Qc_of_Z 1000)%Qc (Qc_of_Z 100) in
  Qc_max (Qc_of_Z 1) (cpu + gpu + score)%Qc.

Definition registerDevice (s : t) (device : DeviceInfo) : t :=
  let weight := calculateWeight device in
  let old := get_or (deviceWeights s !! dev_id device) (Q2Qc 0) in
  mk (jobQueue s)
     (<[dev_id device :=
          mkQuota (dev_id device) weight 0
                  (Z.max 10 (Z_or (cpuCores (capabilities device)) 4 * 4))]>
        (deviceQuotas s))
     (<[dev_id device := weight]> (deviceWeights s))
     (totalWeight s + (weight - old))%Qc.

Definition share (s : t) (device : DeviceInfo) (requestedCount : Z) : Z :=
  let weight := get_or (deviceWeights s !! dev_id device) (Qc_of_Z 1) in
  Z.max 1
    (Qc_floor ((weight / Qc_max (Qc_of_Z 1) (totalWeight s))
               * Qc_of_Z requestedCount * Qc_of_Z 3)%Qc).

(** The body of [getJobBatchForDevice] once the quota has been found. *)
Definition batchWithQuota (s : t) (device : DeviceInfo) (quota : DeviceJobQuota)
    (requestedCount : Z) : list Job * t :=
  let availableSlots := maxConcurrent quota - activeJobs quota in
  if decide (availableSlots ≤ 0) then ([], s)
  else
    let batchSize :=
      Z.min (Z.min (share s device requestedCount) availableSlots)
            (Z.of_nat (length (jobQueue s))) in
    let '(queue', batch, active') :=
      batchLoop (Z.to_nat batchSize) (preferredType device)
                (jobQueue s) [] (activeJobs quota) in
    (batch,
     mk queue'
        (<[dev_id device := set_activeJobs active' quota]> (deviceQuotas s))
        (deviceWeights s) (totalWeight s)).

(** [getJobBatchForDevice]: an unknown device is registered first and the
    call starts over, now finding the quota that was just stored (the inner
    [None] is never reached, see [getJobBatchForDevice_unfold]). *)
Definition getJobBatchForDevice (s : t) (device : DeviceInfo) (requestedCount : Z)
    : list Job * t :=
  match deviceQuotas s !! dev_id device with
  | Some quota => batchWithQuota s device quota requestedCount
  | None =>
      let s' := registerDevice s device in
      match deviceQuotas s' !! dev_id device with
      | Some quota => batchWithQuota s' device quota requestedCount
      | None => ([], s')
      end
  end.

Definition latencyImpact (durationMs : Z) : Qc :=
  if decide (2000 < durationMs) then Q2Qc (95 # 100) else Q2Qc (102 # 100).

Definition releaseJobSlot (s : t) (id : string) (durationMs : option Z) : t :=
  match deviceQuotas s !! id with
  | Some quota =>
      if decide (0 < activeJobs quota) then
        let q1 := set_activeJobs (activeJobs quota - 1) quota in
        let q2 :=
          match durationMs with
          | Some d =>
              if decide (d ≠ 0 ∧ 0 < d)
              then set_weight (weight q1 * latencyImpact d)%Qc q1
              else q1
          | None => q1
          end in
        mk (jobQueue s) (<[id := q2]> (deviceQuotas s)) (deviceWeights s) (totalWeight s)
      else s
  | None => s
  end.

Definition MAX_QUEUE_SIZE : Z := 5000.

Definition generateJobs (s : t) (rnd : nat → Draw) : t :=
  if decide (MAX_QUEUE_SIZE < Z.of_nat (length (jobQueue s))) then s
  else mk (jobQueue s ++ map (λ i, jobOfDraw (rnd i)) (seq 0 100))
          (deviceQuotas s) (deviceWeights s) (totalWeight s).

Definition getQueueStats (s : t) : Z * Z :=
  (Z.of_nat (length (jobQueue s)),
   map_fold (λ _ q sum, sum + activeJobs q) 0 (deviceQuotas s)).

(** The calls the scheduler receives, and the state after a sequence of
    them. *)
Inductive Op :=
| Register (device : DeviceInfo)
| RequestBatch (device : DeviceInfo) (requestedCount : Z)
| ReleaseSlot (id : string) (durationMs : option Z)
| Generate (rnd : nat → Draw).

Definition step (s : t) (op : Op) : t :=
  match op with
  | Register device => registerDevice s device
  | RequestBatch device n => snd (getJobBatchForDevice s device n)
  | ReleaseSlot id d => releaseJobSlot s id d
  | Generate rnd => generateJobs s rnd
  end.

Definition run (s : t) (ops : list Op) : t := foldl step s ops.

(** The invariant the calls maintain: the running total is the sum of the
    weight map, every weight is at least 1, every quota is within its
    ceiling, and quotas and weights are kept for the same devices. *)
Record wf (s : t) : Prop := mk_wf {
  wf_total : totalWeight s = sumWeights (deviceWeights s);
  wf_weights : map_Forall (λ _ w, (Qc_of_Z 1 ≤ w)%Qc) (deviceWeights s);
  wf_quotas :
    map_Forall (λ _ q, 0 ≤ activeJobs q ≤ maxConcurrent q) (deviceQuotas s);
  wf_dom : ∀ id, is_Some (deviceQuotas s !! id) ↔ is_Some (deviceWeights s !! id)
}.

End JobScheduler.

(** ** [AuthManager.ts]: invite tokens *)

Module AuthManager.

Record TokenData := mkToken { tok_swarmId : string; expiresAt : Z }.

Record t := mk {
  activeTokens : gmap string TokenData;
  tokenGenerationLog : gmap string (list Z)
}.

Definition init : t := mk ∅ ∅.

Definition TOKEN_TTL_MS : Z := 24 * 60 * 60 * 1000.

(** The filtered issuance history of a swarm at time [now]. *)
Definition recentGenerations (s : t) (swarm : string) (now : Z) : list Z :=
  let generations := default [] (tokenGenerationLog s !! swarm) in
  let oneMinuteAgo := now - 60000 in
  filter (λ t, oneMinuteAgo < t) generations.

(** [generateToken]: [now] is the [Date.now()] read at the start, which the
    rate limit uses and which is recorded; [now2] is the [Date.now()] read
    again when the token is stored, which sets the expiry; [rnd] is the six
    characters drawn from [Math.random()]; [None] is [null]. *)
Definition generateToken (s : t) (swarm : string) (now now2 : Z) (rnd : string)
    : option string * t :=
  let generations := recentGenerations s swarm now in
  if decide (5 ≤ length generations)%nat then (None, s)
  else
    let generations := generations ++ [now] in
    (Some rnd,
     mk (<[rnd := mkToken swarm (now2 + TOKEN_TTL_MS)]> (activeTokens s))
        (<[swarm := generations]> (tokenGenerationLog s))).

(** A sequence of [generateToken] calls for one swarm, each with its two
    clock readings and its random code, and the replies in order. *)
Fixpoint generateTokens (s : t) (swarm : string) (calls : list (Z * Z * string))
    : list (option string) * t :=
  match calls with
  | [] => ([], s)
  | (now, now2, rnd) :: calls' =>
      let '(r, s1) := generateToken s swarm now now2 rnd in
      let '(rs, s2) := generateTokens s1 swarm calls' in
      (r :: rs, s2)
  end.

Definition validateToken (s : t) (token : string) (now : Z) : option string * t :=
  match activeTokens s !! token with
  | None => (None, s)
  | Some data =>
      if decide (expiresAt data < now)
      then (None, mk (delete token (activeTokens s)) (tokenGenerationLog s))
      else (Some (tok_swarmId data), s)
  end.

Definition cleanup (s : t) (now : Z) : t :=
  mk (map_fold (λ token data acc,
                  if decide (expiresAt data < now) then delete token acc else acc)
               (activeTokens s) (activeTokens s))
     (tokenGenerationLog s).

(** The calls the token manager receives, and the state after a sequence
    of them. *)
Inductive Op :=
| Generate (swarm : string) (now now2 : Z) (rnd : string)
| Validate (token : string) (now : Z)
| Cleanup (now : Z).

Definition step (s : t) (op : Op) : t :=
  match op with
  | Generate swarm now now2 rnd => snd (generateToken s swarm now now2 rnd)
  | Validate token now => snd (validateToken s token now)
  | Cleanup now => cleanup s now
  end.

Definition run (s : t) (ops : list Op) : t := foldl step s ops.

End AuthManager.

(** ** [AuthManager.ts]: the device registry *)

Module DeviceManager.

Definition OFFLINE_THRESHOLD : Z := 60000.
Definition DELETE_THRESHOLD : Z := 300000.

Definition classify (name : string) (caps : DeviceCapabilities) : DeviceType :=
  if includes (toLowerCase name) "mobile" then MOBILE
  else if includes (toLowerCase name) "colab" then COLAB
  else if gpuAvailable caps && bool_decide (16 < memoryGB caps) then SERVER
  else DESKTOP.

Definition register (devices : gmap string DeviceInfo)
    (id name : string) (caps : DeviceCapabilities) (swarm : string) (now : Z)
    : gmap string DeviceInfo :=
  let existing := devices !! id in
  <[id := mkDevice id name (classify name caps) ONLINE caps
            (from_option (λ e, Qc_or (opsScore e) (Q2Qc 0)) (Q2Qc 0) existing)
            (from_option (λ e, Z_or (totalJobsCompleted e) 0) 0 existing)
            now (Some now) (Some swarm)]> devices.

(** The body of [heartbeat] on the record found under [id]. *)
Definition beat (now : Z) (data : option Z) (device : DeviceInfo) : DeviceInfo :=
  let d1 := set_lastHeartbeat now device in
  let d2 := match data with
            | Some li => if decide (li = 0) then d1 else set_lastUserInteraction li d1
            | None => d1
            end in
  if decide (status d2 = OFFLINE ∨ status d2 = REGISTERED)
  then set_status ONLINE d2 else d2.

Definition heartbeat (devices : gmap string DeviceInfo)
    (id : string) (data : option Z) (now : Z) : gmap string DeviceInfo :=
  match devices !! id with
  | None => devices
  | Some device => <[id := beat now data device]> devices
  end.

Definition toggleDevice (devices : gmap string DeviceInfo)
    (id : string) (enabled : bool) : gmap string DeviceInfo :=
  match devices !! id with
  | Some device =>
      <[id := set_status (if enabled then ONLINE else DISABLED) device]> devices
  | None => devices
  end.

Definition updateScore (devices : gmap string DeviceInfo)
    (id : string) (score : Qc) : gmap string DeviceInfo :=
  match devices !! id with
  | Some device => <[id := set_opsScore score device]> devices
  | None => devices
  end.

Definition getDevice (devices : gmap string DeviceInfo) (id : string) :=
  devices !! id.

Definition remove (devices : gmap string DeviceInfo) (id : string) :=
  delete id devices.

(** The callback of [cleanup]'s [forEach], acting on the map [acc]. *)
Definition sweepEntry (now : Z) (id : string) (device : DeviceInfo)
    (acc : gmap string DeviceInfo) : gmap string DeviceInfo :=
  let diff := now - lastHeartbeat device in
  if decide (DELETE_THRESHOLD < diff) then delete id acc
  else if decide (status device ≠ DISABLED ∧ OFFLINE_THRESHOLD < diff)
       then <[id := set_status OFFLINE device]> acc
       else acc.

Definition cleanup (devices : gmap string DeviceInfo) (now : Z)
    : gmap string DeviceInfo :=
  map_fold (sweepEntry now) devices devices.

Inductive Op :=
| Register (id name : string) (caps : DeviceCapabilities) (swarm : string) (now : Z)
| Heartbeat (id : string) (data : option Z) (now : Z)
| Toggle (id : string) (enabled : bool)
| UpdateScore (id : string) (score : Qc)
| Remove (id : string)
| Cleanup (now : Z).

Definition step (devices : gmap string DeviceInfo) (op : Op) : gmap string DeviceInfo :=
  match op with
  | Register id name caps swarm now => register devices id name caps swarm now
  | Heartbeat id data now => heartbeat devices id data now
  | Toggle id enabled => toggleDevice devices id enabled
  | UpdateScore id score => updateScore devices id score
  | Remove id => remove devices id
  | Cleanup now => cleanup devices now
  end.

Definition run (devices : gmap string DeviceInfo) (ops : list Op) :=
  foldl step devices ops.

(** The two calls that set a device's status to ONLINE unconditionally. *)
Definition reenables (id : string) (op : Op) : Prop :=
  match op with
  | Register id' _ _ _ _ => id' = id
  | Toggle id' true => id' = id
  | _ => False
  end.

(** [getDevicesBySwarm]: the values of the map, filtered.  The order of the
    list is the order in which the map is enumerated. *)
Definition getDevicesBySwarm (devices : gmap string DeviceInfo) (swarm : string)
    : list DeviceInfo :=
  filter (λ d, swarmId d = Some swarm) (snd <$> map_to_list devices).

(** The callback of [getAvailableResources]'s [forEach]. *)
Definition addResources (acc : SwarmResources) (d : DeviceInfo) : SwarmResources :=
  if decide (status d = ONLINE ∨ status d = BUSY ∨ status d = REGISTERED)
  then mkResources (totalCores acc + cpuCores (capabilities d))
                   (totalMemory acc + memoryGB (capabilities d))
                   (if gpuAvailable (capabilities d)
                    then totalGPUs acc + 1 else totalGPUs acc)
                   (onlineCount acc + 1)
  else acc.

Definition getAvailableResources (devices : gmap string DeviceInfo) (swarm : string)
    : SwarmResources :=
  foldl addResources (mkResources 0 0 0 0) (getDevicesBySwarm devices swarm).

End DeviceManager.

(** ** [SwarmCoordinator.ts]: the same logic over Durable Object storage *)

Module SwarmCoordinator.

Inductive RunState := IDLE | RUNNING | PAUSED | STOPPED.

Global Instance RunState_eq_dec : EqDecision RunState.
Proof. solve_decision. Defined.

Record TokenData := mkToken { tok_swarmId : string; expiresAt : Z }.

(** The storage of one Durable Object, one field per key or key prefix:
    [device:<id>], [quota:<id>], [scheduler:weights], [job:queue],
    [ratelimit:<swarm>], [token:<code>], [swarm:state], [swarm:completed]
    and [swarm:throttle].  A key read with [get] that was never written is
    [None] (an absent entry for the prefixes). *)
Record Storage := mk {
  self_id : string;
  devices : gmap string DeviceInfo;
  quotas : gmap string DeviceJobQuota;
  weights : option (gmap string Qc);
  queue : option (list Job);
  ratelimit : gmap string (list Z);
  tokens : gmap string TokenData;
  runState : option RunState;
  completed : option Z;
  throttle : option Z
}.

Definition init (id : string) : Storage := mk id ∅ ∅ None None ∅ ∅ None None None.

Definition put_device (k : string) (d : DeviceInfo) (st : Storage) : Storage :=
  mk (self_id st) (<[k := d]> (devices st)) (quotas st) (weights st) (queue st)
     (ratelimit st) (tokens st) (runState st) (completed st) (throttle st).
Definition delete_device (k : string) (st : Storage) : Storage :=
  mk (self_id st) (delete k (devices st)) (quotas st) (weights st) (queue st)
     (ratelimit st) (tokens st) (runState st) (completed st) (throttle st).
Definition put_quota (k : string) (q : DeviceJobQuota) (st : Storage) : Storage :=
  mk (self_id st) (devices st) (<[k := q]> (quotas st)) (weights st) (queue st)
     (ratelimit st) (tokens st) (runState st) (completed st) (throttle st).
Definition put_weights (w : gmap string Qc) (st : Storage) : Storage :=
  mk (self_id st) (devices st) (quotas st) (Some w) (queue st)
     (ratelimit st) (tokens st) (runState st) (completed st) (throttle st).
Definition put_queue (q : list Job) (st : Storage) : Storage :=
  mk (self_id st) (devices st) (quotas st) (weights st) (Some q)
     (ratelimit st) (tokens st) (runState st) (completed st) (throttle st).
Definition put_ratelimit (k : string) (l : list Z) (st : Storage) : Storage :=
  mk (self_id st) (devices st) (quotas st) (weights st) (queue st)
     (<[k := l]> (ratelimit st)) (tokens st) (runState st) (completed st) (throttle st).
Definition put_token (k : string) (d : TokenData) (st : Storage) : Storage :=
  mk (self_id st) (devices st) (quotas st) (weights st) (queue st)
     (ratelimit st) (<[k := d]> (tokens st)) (runState st) (completed st) (throttle st).
Definition put_runState (r : RunState) (st : Storage) : Storage :=
  mk (self_id st) (devices st) (quotas st) (weights st) (queue st)
     (ratelimit st) (tokens st) (Some r) (completed st) (throttle st).
Definition put_completed (n : Z) (st : Storage) : Storage :=
  mk (self_id st) (devices st) (quotas st) (weights st) (queue st)
     (ratelimit st) (tokens st) (runState st) (Some n) (throttle st).
Definition put_throttle (n : Z) (st : Storage) : Storage :=
  mk (self_id st) (devices st) (quotas st) (weights st) (queue st)
     (ratelimit st) (tokens st) (runState st) (completed st) (Some n).

Definition calculateWeight (device : DeviceInfo) : Qc :=
  let cpu := Qc_of_Z (Z_or (cpuCores (capabilities device)) 4 * 10) in
  let gpu := Qc_of_Z (if gpuAvailable (capabilities device) then 50 else 0) in
  let score := Qc_min (Qc_or (opsScore device) (Q2Qc 0) / Qc_of_Z 1000)%Qc (Qc_of_Z 100) in
  Qc_max (Qc_of_Z 1) (cpu + gpu + score)%Qc.

Definition registerDeviceInScheduler (st : Storage) (device : DeviceInfo) : Storage :=
  let weight := calculateWeight device in
  let quota := mkQuota (dev_id device) weight 0
                 (Z.max 10 (Z_or (cpuCores (capabilities device)) 4 * 4)) in
  let st1 := put_quota (dev_id device) quota st in
  let ws := default ∅ (weights st1) in
  put_weights (<[dev_id device := weight]> ws) st1.

Definition generateJobs (st : Storage) (rnd : nat → Draw) : Storage :=
  let q := default [] (queue st) in
  if decide (5000 < Z.of_nat (length q)) then st
  else put_queue (q ++ map (λ i, jobOfDraw (rnd i)) (seq 0 100)) st.

Definition share (st : Storage) (device : DeviceInfo) : Z :=
  let ws := default ∅ (weights st) in
  let totalWeight := sumWeights ws in
  let weight := get_or (ws !! dev_id device) (Qc_of_Z 1) in
  Z.max 1 (Qc_floor ((weight / Qc_max (Qc_of_Z 1) totalWeight) * Qc_of_Z 30)%Qc).

(** [getJobBatchForDevice] calls itself after registering an unknown
    device and after refilling an empty queue; [fuel] bounds the depth of
    these calls. *)
Fixpoint getJobBatchFuel (fuel : nat) (st : Storage) (device : DeviceInfo)
    (rnd : nat → Draw) : option (list Job * Storage) :=
  match fuel with
  | O => None
  | S fuel' =>
      match quotas st !! dev_id device with
      | None =>
          getJobBatchFuel fuel' (registerDeviceInScheduler st device) device rnd
      | Some quota =>
          let availableSlots := maxConcurrent quota - activeJobs quota in
          if decide (availableSlots ≤ 0) then Some ([], st)
          else
            let q := default [] (queue st) in
            if decide (length q = 0%nat)
            then getJobBatchFuel fuel' (generateJobs st rnd) device rnd
            else
              let batchSize :=
                Z.min (Z.min (share st device) availableSlots)
                      (Z.of_nat (length q)) in
              let '(q', batch, active') :=
                batchLoop (Z.to_nat batchSize) (preferredType device)
                          q [] (activeJobs quota) in
              Some (batch,
                    put_queue q'
                      (put_quota (dev_id device) (set_activeJobs active' quota) st))
      end
  end.

(** Three levels always suffice (lemma [getJobBatchFuel_total]). *)
Definition getJobBatchForDevice (st : Storage) (device : DeviceInfo)
    (rnd : nat → Draw) : list Job * Storage :=
  default ([], st) (getJobBatchFuel 3 st device rnd).

(** The state in which the body runs: after the registration of an
    unknown device and the refill of an empty queue. *)
Definition prepared (st : Storage) (device : DeviceInfo) (rnd : nat → Draw)
    : Storage :=
  let st1 := match quotas st !! dev_id device with
             | None => registerDeviceInScheduler st device
             | Some _ => st
             end in
  match quotas st1 !! dev_id device with
  | Some quota =>
      if decide (maxConcurrent quota - activeJobs quota ≤ 0) then st1
      else if decide (length (default [] (queue st1)) = 0%nat)
           then generateJobs st1 rnd else st1
  | None => st1
  end.

Definition latencyImpact (durationMs : Z) : Qc :=
  if decide (2000 < durationMs) then Q2Qc (95 # 100) else Q2Qc (102 # 100).

Definition releaseJobSlot (st : Storage) (id : string) (durationMs : option Z)
    : Storage :=
  match quotas st !! id with
  | Some quota =>
      if decide (0 < activeJobs quota) then
        let q1 := set_activeJobs (activeJobs quota - 1) quota in
        let q2 :=
          match durationMs with
          | Some d =>
              if decide (d ≠ 0 ∧ 0 < d)
              then set_weight (weight q1 * latencyImpact d)%Qc q1
              else q1
          | None => q1
          end in
        put_quota id q2 st
      else st
  | None => st
  end.

Definition handleRegister (st : Storage) (persistentId name : string)
    (caps : DeviceCapabilities) (now : Z) : Storage :=
  let existing := devices st !! persistentId in
  let device :=
    mkDevice persistentId name (DeviceManager.classify name caps) ONLINE caps
      (from_option (λ e, Qc_or (opsScore e) (Q2Qc 0)) (Q2Qc 0) existing)
      (from_option (λ e, Z_or (totalJobsCompleted e) 0) 0 existing)
      now (Some now) (Some (self_id st)) in
  registerDeviceInScheduler (put_device persistentId device st) device.

Definition handleHeartbeat (st : Storage) (persistentId : string)
    (data : option Z) (now : Z) : Storage :=
  match devices st !! persistentId with
  | None => st
  | Some device => put_device persistentId (DeviceManager.beat now data device) st
  end.

(** The batch is what is sent to the requesting session ([[]]: nothing). *)
Definition handleJobRequest (st : Storage) (persistentId : string)
    (rnd : nat → Draw) : list Job * Storage :=
  match runState st with
  | Some RUNNING =>
      match devices st !! persistentId with
      | None => ([], st)
      | Some device =>
          if decide (status device = OFFLINE) then ([], st)
          else getJobBatchForDevice st device rnd
      end
  | _ => ([], st)
  end.

Definition handleJobComplete (st : Storage) (persistentId : string)
    (error : bool) (durationMs : option Z) : Storage :=
  let st1 := releaseJobSlot st persistentId durationMs in
  if error then st1
  else
    let st2 := put_completed (Z_or (default 0 (completed st1)) 0 + 1) st1 in
    match devices st2 !! persistentId with
    | Some device =>
        put_device persistentId
          (mkDevice (dev_id device) (dev_name device) (dev_type device) (status device)
             (capabilities device) (opsScore device) (totalJobsCompleted device + 1)
             (lastHeartbeat device) (lastUserInteraction device) (swarmId device)) st2
    | None => st2
    end.

Definition handleSetState (st : Storage) (r : RunState) : Storage := put_runState r st.
Definition handleSetThrottle (st : Storage) (v : Z) : Storage := put_throttle v st.

Definition handleBenchmarkResult (st : Storage) (persistentId : string) (score : Qc)
    : Storage :=
  match devices st !! persistentId with
  | Some device =>
      let device' := set_opsScore score device in
      registerDeviceInScheduler (put_device persistentId device' st) device'
  | None => st
  end.

Definition handleToggleDevice (st : Storage) (id : string) (enabled : bool) : Storage :=
  match devices st !! id with
  | Some device =>
      put_device id (set_status (if enabled then ONLINE else DISABLED) device) st
  | None => st
  end.

Definition recentGenerations (st : Storage) (now : Z) : list Z :=
  let generations := default [] (ratelimit st !! self_id st) in
  let oneMinuteAgo := now - 60000 in
  filter (λ t, oneMinuteAgo < t) generations.

(** [handleGenerateToken]: the first component is the [data] of the
    [auth:token] reply, the empty string when rate limited. *)
Definition handleGenerateToken (st : Storage) (now : Z) (rnd : string)
    : string * Storage :=
  let recent := recentGenerations st now in
  if decide (5 ≤ length recent)%nat then (EmptyString, st)
  else
    let st1 := put_ratelimit (self_id st) (recent ++ [now]) st in
    (rnd, put_token rnd (mkToken (self_id st) (now + 24 * 60 * 60 * 1000)) st1).

(** A sequence of [auth:generate_token] requests, each with its clock
    reading and random code, and the replies in order. *)
Fixpoint handleGenerateTokens (st : Storage) (calls : list (Z * string))
    : list string * Storage :=
  match calls with
  | [] => ([], st)
  | (now, rnd) :: calls' =>
      let '(r, st1) := handleGenerateToken st now rnd in
      let '(rs, st2) := handleGenerateTokens st1 calls' in
      (r :: rs, st2)
  end.

Definition handleDisconnect (st : Storage) (persistentId : string) : Storage :=
  match devices st !! persistentId with
  | Some device =>
      if decide (status device ≠ DISABLED)
      then put_device persistentId (set_status OFFLINE device) st
      else st
  | None => st
  end.

(** One round of [cleanup]'s loop over the listed [device:] entries. *)
Definition sweepEntry (now : Z) (key : string) (device : DeviceInfo)
    (acc : gmap string DeviceInfo) : gmap string DeviceInfo :=
  let diff := now - lastHeartbeat device in
  if decide (300000 < diff) then delete key acc
  else if decide (status device ≠ DISABLED ∧ 60000 < diff)
       then <[key := set_status OFFLINE device]> acc
       else acc.

Definition cleanup (st : Storage) (now : Z) : Storage :=
  mk (self_id st) (map_fold (sweepEntry now) (devices st) (devices st))
     (quotas st) (weights st) (queue st)
     (ratelimit st) (tokens st) (runState st) (completed st) (throttle st).

(** [broadcastState]: the snapshot that is sent to every session. *)
Record Stats := mkStats {
  totalJobs : Z;
  stats_activeJobs : Z;
  pendingJobs : Z;
  completedJobs : Z;
  globalVelocity : Z;
  globalThrottle : Z
}.

Record SwarmSnapshot := mkSnapshot {
  snap_runState : RunState;
  snap_devices : gmap string DeviceInfo;
  stats : Stats;
  resources : SwarmResources
}.

(** The accumulators of the loop over the listed devices. *)
Record Totals := mkTotals { totalOpsScore : Qc; tot_resources : SwarmResources }.

Definition tally (acc : Totals) (device : DeviceInfo) : Totals :=
  if decide (status device ≠ OFFLINE ∧ status device ≠ DISABLED)
  then mkTotals
         (totalOpsScore acc + Qc_or (opsScore device) (Q2Qc 0))%Qc
         (mkResources
            (totalCores (tot_resources acc) + cpuCores (capabilities device))
            (totalMemory (tot_resources acc) + memoryGB (capabilities device))
            (if gpuAvailable (capabilities device)
             then totalGPUs (tot_resources acc) + 1 else totalGPUs (tot_resources acc))
            (onlineCount (tot_resources acc) + 1))
  else acc.

Definition snapshot (st : Storage) : SwarmSnapshot :=
  let list := snd <$> map_to_list (devices st) in
  let devs := foldl (λ acc d, <[dev_id d := d]> acc) ∅ list in
  let totals := foldl tally (mkTotals (Q2Qc 0) (mkResources 0 0 0 0)) list in
  let runState := default STOPPED (runState st) in
  let completedCount := Z_or (default 0 (completed st)) 0 in
  let currentThrottle := Z_or (default 0 (throttle st)) 40 in
  let q := default [] (queue st) in
  mkSnapshot runState devs
    (mkStats
       (completedCount + Z.of_nat (length q))
       (if decide (runState = RUNNING)
        then onlineCount (tot_resources totals) else 0)
       (Z.of_nat (length q))
       completedCount
       (if decide (runState = RUNNING)
        then Qc_round (totalOpsScore totals *
                       (Qc_of_Z currentThrottle / Qc_of_Z 100))%Qc
        else 0)
       currentThrottle)
    (tot_resources totals).

(** The messages of [handleMessage], by [event]; [OtherEvent] stands for
    every event name the [switch] has no case for. *)
Inductive Message :=
| DeviceRegister (name : string) (caps : DeviceCapabilities)
| HeartbeatMsg (data : option Z)
| JobRequestBatch
| JobComplete (chunkId : string) (error : bool) (durationMs : option Z)
| SetRunState (r : RunState)
| SetThrottle (value : Z)
| BenchmarkResult (score : Qc)
| ToggleDevice (id : string) (enabled : bool)
| GenerateToken
| OtherEvent.

(** What is sent back to the socket the message came from. *)
Inductive Reply :=
| NoReply
| JobBatchReply (batch : list Job)
| AuthTokenReply (token : string).

(** What one message reads from the outside: the clock and the random
    draws. *)
Record Env := mkEnv { env_now : Z; env_token : string; env_jobs : nat → Draw }.

Definition handleMessage (st : Storage) (persistentId : string) (msg : Message)
    (env : Env) : Reply * Storage :=
  match msg with
  | DeviceRegister name caps =>
      (NoReply, handleRegister st persistentId name caps (env_now env))
  | HeartbeatMsg data => (NoReply, handleHeartbeat st persistentId data (env_now env))
  | JobRequestBatch =>
      let '(batch, st') := handleJobRequest st persistentId (env_jobs env) in
      (if decide (0 < length batch)%nat then JobBatchReply batch else NoReply, st')
  | JobComplete _ error durationMs =>
      (NoReply, handleJobComplete st persistentId error durationMs)
  | SetRunState r => (NoReply, handleSetState st r)
  | SetThrottle v => (NoReply, handleSetThrottle st v)
  | BenchmarkResult score => (NoReply, handleBenchmarkResult st persistentId score)
  | ToggleDevice id enabled => (NoReply, handleToggleDevice st id enabled)
  | GenerateToken =>
      let '(token, st') := handleGenerateToken st (env_now env) (env_token env) in
      (AuthTokenReply token, st')
  | OtherEvent => (NoReply, st)
  end.

(** What happens to a Durable Object: a message on a socket, the close of
    a socket, the alarm. *)
Inductive Event :=
| OnMessage (persistentId : string) (msg : Message) (env : Env)
| OnClose (persistentId : string)
| OnAlarm (now : Z).

(** [alarm] broadcasts the snapshot, which writes nothing, and sweeps. *)
Definition alarm (st : Storage) (now : Z) : Storage := cleanup st now.

Definition step (st : Storage) (ev : Event) : Storage :=
  match ev with
  | OnMessage persistentId msg env => snd (handleMessage st persistentId msg env)
  | OnClose persistentId => handleDisconnect st persistentId
  | OnAlarm now => alarm st now
  end.

Definition run (st : Storage) (evs : list Event) : Storage := foldl step st evs.

(** The invariant of the stored state: records are filed under their own
    identifier and belong to this swarm, every stored device has a quota,
    quotas are within their ceiling, and weights are at least 1. *)
Record wf (st : Storage) : Prop := mk_wf {
  wf_device_key :
    map_Forall (λ k d, dev_id d = k ∧ swarmId d = Some (self_id st)) (devices st);
  wf_device_quota : ∀ k, is_Some (devices st !! k) → is_Some (quotas st !! k);
  wf_quota_bounds :
    map_Forall (λ _ q, 0 ≤ activeJobs q ≤ maxConcurrent q) (quotas st);
  wf_weights_ge_1 :
    map_Forall (λ _ w, (Qc_of_Z 1 ≤ w)%Qc) (default ∅ (weights st))
}.

End SwarmCoordinator.

(** ** The Worker's entry point: routing a request to a swarm *)

Module Worker.

(** The parts of a request that [fetch] reads: the method, the path and the
    two query parameters ([None] when the parameter is absent). *)
Record Request := mkRequest {
  method : string;
  pathname : string;
  persistentId : option string;
  token : option string
}.

Inductive Response :=
| Preflight
| Health
| MissingPersistentId
| Upgrade (swarm : string)
| NotFound.

(** Master mode without a usable token, worker mode with one. *)
Definition swarmIdOf (persistentId : string) (token : option string) : string :=
  match token with
  | None => persistentId
  | Some t =>
      if decide (t = EmptyString ∨ t = "null" ∨ t = "undefined" ∨ t = EmptyString)
      then persistentId else t
  end.

Definition fetch (r : Request) : Response :=
  if decide (method r = "OPTIONS") then Preflight
  else if decide (pathname r = "/health") then Health
  else if decide (pathname r = "/ws") then
    match persistentId r with
    | None => MissingPersistentId
    | Some p =>
        if decide (p = EmptyString) then MissingPersistentId
        else Upgrade (swarmIdOf p (token r))
    end
  else NotFound.

End Worker.

(** ** Sample data used by the concrete checks *)

Definition dev4 : DeviceInfo :=
  mkDevice "D" "laptop" DESKTOP ONLINE (mkCaps 4 8 false None) (Q2Qc 0) 0 0 None None.
Definition gpu8 : DeviceInfo :=
  mkDevice "G" "rig" DESKTOP ONLINE (mkCaps 8 8 true None) (Q2Qc 0) 0 0 None None.
Definition jobA : Job := mkJob "A" MATH_STRESS 1 (IterationsData 100000).
Definition jobB : Job := mkJob "B" MAT_MUL 1 (SizeData 1024).

(** A scheduler whose queue is [[A; B]] and that knows no device yet. *)
Definition schedAB : JobScheduler.t := JobScheduler.mk [jobA; jobB] ∅ ∅ (Q2Qc 0).

(** The same queue after [dev4] has registered and drawn both jobs. *)
Definition schedBusy : JobScheduler.t :=
  snd (JobScheduler.getJobBatchForDevice
         (JobScheduler.registerDevice schedAB dev4) dev4 10).

(** Two registered devices, the GPU rig and the laptop. *)
Definition schedTwo : JobScheduler.t :=
  JobScheduler.registerDevice (JobScheduler.registerDevice schedAB gpu8) dev4.

(** A registry in which device [D] registered at time [0] and was then
    disabled by the operator. *)
Definition registryDisabled : gmap string DeviceInfo :=
  DeviceManager.toggleDevice
    (DeviceManager.register ∅ "D" "laptop" (mkCaps 4 8 false None) "S" 0) "D" false.

Definition sampleDraw (i : nat) : Draw := mkDraw (i mod 3 =? 0)%nat "job" 5.

Definition sampleOps : list JobScheduler.Op :=
  [JobScheduler.Register dev4; JobScheduler.Generate sampleDraw;
   JobScheduler.RequestBatch dev4 10; JobScheduler.ReleaseSlot "D" (Some 100)].

(** A short life of a coordinator: a device registers, the operator starts
    the swarm, the device draws a batch and completes one job, the alarm
    fires. *)
Definition sampleEnv : SwarmCoordinator.Env :=
  SwarmCoordinator.mkEnv 1000 "ABC123" sampleDraw.

Definition sampleEvents : list SwarmCoordinator.Event :=
  [SwarmCoordinator.OnMessage "D"
     (SwarmCoordinator.DeviceRegister "laptop" (mkCaps 4 8 false None)) sampleEnv;
   SwarmCoordinator.OnMessage "D"
     (SwarmCoordinator.SetRunState SwarmCoordinator.RUNNING) sampleEnv;
   SwarmCoordinator.OnMessage "D" SwarmCoordinator.JobRequestBatch sampleEnv;
   SwarmCoordinator.OnMessage "D"
     (SwarmCoordinator.JobComplete "job" false (Some 100)) sampleEnv;
   SwarmCoordinator.OnAlarm 3000].

(** * Properties *)

(** ** The batch loop *)

Section batch_loop.

Lemma findIndex_Some {A} (p : A → bool) (l : list A) (i : nat) :
  findIndex p l = Some i →
  ∃ l1 x l2, l = l1 ++ x :: l2 ∧ length l1 = i ∧ p x = true ∧
             Forall (λ y, p y = false) l1.
Proof.
  revert i. induction l as [|y l IH]; intros i; simpl; [done|].
  destruct (p y) eqn:Hy.
  - intros [= <-]. by exists [], y, l.
  - destruct (findIndex p l) as [k|]; simpl; [|done].
    intros [= <-]. destruct (IH k eq_refl) as (l1 & x & l2 & -> & <- & Hx & Hl1).
    exists (y :: l1), x, l2. repeat split; auto.
Qed.

Lemma findIndex_None {A} (p : A → bool) (l : list A) :
  findIndex p l = None ↔ Forall (λ y, p y = false) l.
Proof.
  induction l as [|y l IH]; simpl; [by split|].
  destruct (p y) eqn:Hy.
  - split; [done|]. intros H. apply Forall_cons in H as [? _]. congruence.
  - destruct (findIndex p l); simpl.
    + split; [done|]. intros H. apply Forall_cons in H as [_ H].
      apply IH in H. done.
    + split; [|done]. intros _. constructor; [done|]. by apply IH.
Qed.

Lemma findIndex_app_first {A} (p : A → bool) (l1 l2 : list A) (x : A) :
  Forall (λ y, p y = false) l1 → p x = true →
  findIndex p (l1 ++ x :: l2) = Some (length l1).
Proof.
  induction 1 as [|y l1 Hy _ IH]; intros Hx; simpl.
  - by rewrite Hx.
  - rewrite Hy, IH by done. done.
Qed.

Lemma delete_middle {A} (l1 l2 : list A) (x : A) :
  delete (length l1) (l1 ++ x :: l2) = l1 ++ l2.
Proof. induction l1; simpl; [done|]. by f_equal. Qed.

(** The first job of the preferred type is the one taken. *)
Lemma takeJob_preferred pref (l1 l2 : list Job) (j : Job) :
  Forall (λ x, job_type x ≠ pref) l1 → job_type j = pref →
  takeJob pref (l1 ++ j :: l2) = Some (j, l1 ++ l2).
Proof.
  intros Hl1 Hj. unfold takeJob, pickIndex.
  rewrite findIndex_app_first.
  - simpl. rewrite decide_True by (rewrite length_app; simpl; lia).
    rewrite list_lookup_middle by done. simpl. by rewrite delete_middle.
  - eapply Forall_impl; [exact Hl1|]. intros x Hx. by apply bool_decide_eq_false.
  - by apply bool_decide_eq_true.
Qed.

(** Without a job of the preferred type the oldest job is taken. *)
Lemma takeJob_fallback pref (q : list Job) (j : Job) :
  Forall (λ x, job_type x ≠ pref) (j :: q) →
  takeJob pref (j :: q) = Some (j, q).
Proof.
  intros H. unfold takeJob, pickIndex.
  replace (findIndex _ (j :: q)) with (@None nat); [done|].
  symmetry. apply findIndex_None.
  eapply Forall_impl; [exact H|]. intros x Hx. by apply bool_decide_eq_false.
Qed.

Lemma takeJob_nil pref : takeJob pref [] = None.
Proof. done. Qed.

(** A non-empty queue always yields a job, and the rest of the queue is
    the queue without it. *)
Lemma takeJob_cons pref (q : list Job) :
  q ≠ [] → ∃ j q', takeJob pref q = Some (j, q') ∧ q ≡ₚ j :: q'.
Proof.
  intros Hq.
  destruct (findIndex (λ j, bool_decide (job_type j = pref)) q) as [i|] eqn:Hf.
  - destruct (findIndex_Some _ _ _ Hf) as (l1 & x & l2 & -> & <- & Hx & Hl1).
    exists x, (l1 ++ l2). split.
    + apply takeJob_preferred.
      * eapply Forall_impl; [exact Hl1|]. intros y Hy. by apply bool_decide_eq_false_1 in Hy.
      * by apply bool_decide_eq_true_1 in Hx.
    + by rewrite Permutation_middle.
  - destruct q as [|j q]; [done|]. exists j, q. split; [|done].
    apply takeJob_fallback. apply findIndex_None in Hf.
    eapply Forall_impl; [exact Hf|]. intros y Hy. by apply bool_decide_eq_false_1 in Hy.
Qed.

Lemma takeJob_Some pref (q q' : list Job) (j : Job) :
  takeJob pref q = Some (j, q') → q ≡ₚ j :: q'.
Proof.
  intros H. destruct q as [|x q]; [done|].
  destruct (takeJob_cons pref (x :: q)) as (j0 & q0 & H0 & Hp); [done|].
  congruence.
Qed.

(** What the loop returns: the rounds never lose or duplicate a job, and
    the counter grows with the batch. *)
Lemma batchLoop_spec n pref (q b : list Job) (a : Z) :
  ∃ q' taken,
    batchLoop n pref q b a = (q', b ++ taken, a + Z.of_nat (length taken)) ∧
    q ≡ₚ taken ++ q' ∧
    length taken = Nat.min n (length q).
Proof.
  revert q b a. induction n as [|n IH]; intros q b a; simpl.
  - exists q, []. rewrite app_nil_r, Z.add_0_r. done.
  - destruct q as [|x q].
    + rewrite takeJob_nil. destruct (IH [] b a) as (q' & tk & -> & Hp & Hl).
      exists q', tk. repeat split; [done|]. rewrite Hl. simpl. lia.
    + destruct (takeJob_cons pref (x :: q)) as (j & q1 & -> & Hp1); [done|].
      destruct (IH q1 (b ++ [j]) (a + 1)) as (q' & tk & -> & Hp & Hl).
      exists q', (j :: tk). repeat split.
      * rewrite <-app_assoc. cbn [app]. f_equal. rewrite length_cons. lia.
      * rewrite Hp1. simpl. by rewrite Hp.
      * simpl. rewrite Hl. apply Permutation_length in Hp1. simpl in Hp1.
        injection Hp1 as ->. done.
Qed.

End batch_loop.

(** ** Rationals and weight sums *)

Section weights.
Local Open Scope Qc_scope.

Lemma Qc_or_0 (x : Qc) : Qc_or x 0 = x.
Proof. unfold Qc_or. by destruct (decide (x = 0)). Qed.

Lemma get_or_0 (o : option Qc) : get_or o 0 = default 0 o.
Proof. destruct o; simpl; [apply Qc_or_0 | done]. Qed.

Lemma Qc_or_pos (x d : Qc) : 0 < x → Qc_or x d = x.
Proof.
  intros Hx. unfold Qc_or. destruct (decide (x = 0)) as [->|]; [|done].
  by apply Qclt_not_eq in Hx.
Qed.

Lemma Qc_max_le_l (x y : Qc) : x ≤ Qc_max x y.
Proof.
  unfold Qc_max. destruct (decide (x ≤ y)); [done | apply Qcle_refl].
Qed.

Lemma Qc_max_r (x y : Qc) : x ≤ y → Qc_max x y = y.
Proof. intros H. unfold Qc_max. by rewrite decide_True. Qed.

Lemma sumWeights_empty : sumWeights ∅ = 0.
Proof. apply map_fold_empty. Qed.

Lemma sumWeights_insert_None (m : gmap string Qc) (i : string) (w : Qc) :
  m !! i = None → sumWeights (<[i := w]> m) = sumWeights m + w.
Proof.
  intros Hi. unfold sumWeights. rewrite map_fold_insert_L; [done| |done].
  intros. ring.
Qed.

Lemma sumWeights_delete (m : gmap string Qc) (i : string) (w : Qc) :
  m !! i = Some w → sumWeights m = sumWeights (delete i m) + w.
Proof.
  intros Hi. rewrite <-(insert_delete_id m i w) at 1 by done.
  apply sumWeights_insert_None, lookup_delete_eq.
Qed.

(** Overwriting an entry changes the sum by the difference to the value
    that was there. *)
Lemma sumWeights_insert (m : gmap string Qc) (i : string) (w : Qc) :
  sumWeights (<[i := w]> m) = sumWeights m + (w - default 0 (m !! i)).
Proof.
  destruct (m !! i) as [old|] eqn:Hi; simpl.
  - rewrite <-insert_delete_eq, sumWeights_insert_None by apply lookup_delete_eq.
    rewrite (sumWeights_delete m i old) by done. ring.
  - rewrite sumWeights_insert_None by done. ring.
Qed.

Lemma sumWeights_nonneg (m : gmap string Qc) :
  map_Forall (λ _ v, 0 ≤ v) m → 0 ≤ sumWeights m.
Proof.
  induction m as [|i x m Hi IH] using map_ind; intros Hm.
  - rewrite sumWeights_empty. apply Qcle_refl.
  - rewrite sumWeights_insert_None by done.
    apply map_Forall_insert in Hm as [Hx Hm]; [|done].
    replace 0 with (0 + 0) by ring. apply Qcplus_le_compat; auto.
Qed.

(** Every entry of a map of non-negative weights is below the sum. *)
Lemma sumWeights_ge (m : gmap string Qc) (i : string) (w : Qc) :
  map_Forall (λ _ v, 0 ≤ v) m → m !! i = Some w → w ≤ sumWeights m.
Proof.
  intros Hm Hi. rewrite (sumWeights_delete m i w) by done.
  replace w with (0 + w) at 1 by ring.
  apply Qcplus_le_compat; [|apply Qcle_refl].
  apply sumWeights_nonneg. intros k v Hk.
  apply lookup_delete_Some in Hk as [_ Hk]. by apply (Hm k).
Qed.

End weights.

(** ** The scheduler's invariants *)

Section scheduler.
Import JobScheduler.

Lemma calculateWeight_ge_1 (device : DeviceInfo) :
  (Qc_of_Z 1 ≤ calculateWeight device)%Qc.
Proof. apply Qc_max_le_l. Qed.

Lemma Qc_one_pos : (0 < Qc_of_Z 1)%Qc.
Proof. done. Qed.

Lemma Qc_zero_le_one : (0 ≤ Qc_of_Z 1)%Qc.
Proof. done. Qed.

(** What [batchWithQuota] does when the device has a free slot. *)
Lemma batchWithQuota_spec (s : t) (device : DeviceInfo) (quota : DeviceJobQuota)
    (n : Z) :
  0 < maxConcurrent quota - activeJobs quota →
  ∃ taken queue',
    batchWithQuota s device quota n =
      (taken,
       mk queue'
          (<[dev_id device :=
               set_activeJobs (activeJobs quota + Z.of_nat (length taken)) quota]>
             (deviceQuotas s))
          (deviceWeights s) (totalWeight s)) ∧
    jobQueue s ≡ₚ taken ++ queue' ∧
    Z.of_nat (length taken) =
      Z.min (Z.min (share s device n) (maxConcurrent quota - activeJobs quota))
            (Z.of_nat (length (jobQueue s))).
Proof.
  intros Hav. unfold batchWithQuota. rewrite decide_False by lia.
  set (bs := Z.min _ _).
  destruct (batchLoop_spec (Z.to_nat bs) (preferredType device)
              (jobQueue s) [] (activeJobs quota)) as (q' & tk & -> & Hp & Hl).
  exists tk, q'. simpl. repeat split; [done|].
  assert (1 ≤ share s device n) by (unfold share; lia).
  subst bs. lia.
Qed.

Lemma batchWithQuota_full (s : t) (device : DeviceInfo) (quota : DeviceJobQuota)
    (n : Z) :
  maxConcurrent quota - activeJobs quota ≤ 0 →
  batchWithQuota s device quota n = ([], s).
Proof. intros H. unfold batchWithQuota. by rewrite decide_True. Qed.

Lemma registerDevice_quota (s : t) (device : DeviceInfo) :
  deviceQuotas (registerDevice s device) !! dev_id device =
    Some (mkQuota (dev_id device) (calculateWeight device) 0
            (Z.max 10 (Z_or (cpuCores (capabilities device)) 4 * 4))).
Proof. apply lookup_insert_eq. Qed.

(** The branch of [getJobBatchForDevice] that finds no quota after
    registering is never taken. *)
Lemma getJobBatchForDevice_unfold (s : t) (device : DeviceInfo) (n : Z) :
  getJobBatchForDevice s device n =
    match deviceQuotas s !! dev_id device with
    | Some quota => batchWithQuota s device quota n
    | None =>
        batchWithQuota (registerDevice s device) device
          (mkQuota (dev_id device) (calculateWeight device) 0
             (Z.max 10 (Z_or (cpuCores (capabilities device)) 4 * 4))) n
    end.
Proof.
  unfold getJobBatchForDevice. destruct (deviceQuotas s !! dev_id device); [done|].
  by rewrite registerDevice_quota.
Qed.

Lemma wf_init : wf init.
Proof.
  split; simpl.
  - by rewrite sumWeights_empty.
  - apply map_Forall_empty.
  - apply map_Forall_empty.
  - intros id. by rewrite !lookup_empty.
Qed.

Lemma wf_registerDevice (s : t) (device : DeviceInfo) :
  wf s → wf (registerDevice s device).
Proof.
  intros [Ht Hw Hq Hd]. split; simpl.
  - rewrite sumWeights_insert, get_or_0, Ht. done.
  - apply map_Forall_insert_2; [apply calculateWeight_ge_1 | done].
  - apply map_Forall_insert_2; [simpl; lia | done].
  - intros id. destruct (decide (dev_id device = id)) as [->|Hne].
    + rewrite !lookup_insert_eq. split; eauto.
    + rewrite !lookup_insert_ne by done. apply Hd.
Qed.

Lemma wf_batchWithQuota (s : t) (device : DeviceInfo) (quota : DeviceJobQuota)
    (n : Z) :
  deviceQuotas s !! dev_id device = Some quota →
  wf s → wf (snd (batchWithQuota s device quota n)).
Proof.
  intros Hq Hwf.
  destruct (decide (maxConcurrent quota - activeJobs quota ≤ 0)) as [Hfull|Hfree].
  { by rewrite batchWithQuota_full. }
  destruct (batchWithQuota_spec s device quota n) as (tk & q' & -> & _ & Hl); [lia|].
  destruct Hwf as [Ht Hw Hqs Hd]. split; simpl; [done|done| |].
  - apply map_Forall_insert_2; [|done]. simpl.
    pose proof (Hqs _ _ Hq) as Hb. simpl in Hb. lia.
  - intros id. destruct (decide (dev_id device = id)) as [<-|Hne].
    + rewrite lookup_insert_eq, <-Hd, Hq. split; eauto.
    + rewrite lookup_insert_ne by done. apply Hd.
Qed.

Lemma wf_getJobBatchForDevice (s : t) (device : DeviceInfo) (n : Z) :
  wf s → wf (snd (getJobBatchForDevice s device n)).
Proof.
  intros Hwf. rewrite getJobBatchForDevice_unfold.
  destruct (deviceQuotas s !! dev_id device) as [quota|] eqn:Hq.
  - by apply wf_batchWithQuota.
  - apply wf_batchWithQuota; [apply registerDevice_quota|].
    by apply wf_registerDevice.
Qed.

Lemma wf_releaseJobSlot (s : t) (id : string) (d : option Z) :
  wf s → wf (releaseJobSlot s id d).
Proof.
  intros Hwf. unfold releaseJobSlot.
  destruct (deviceQuotas s !! id) as [quota|] eqn:Hq; [|done].
  destruct (decide (0 < activeJobs quota)) as [Hpos|]; [|done].
  destruct Hwf as [Ht Hw Hqs Hd]. split; simpl; [done|done| |].
  - pose proof (Hqs _ _ Hq) as Hb. simpl in Hb.
    apply map_Forall_insert_2; [|done].
    destruct d as [d|]; [destruct (decide (d ≠ 0 ∧ 0 < d))|]; simpl; lia.
  - intros id'. destruct (decide (id = id')) as [<-|Hne].
    + rewrite lookup_insert_eq, <-Hd, Hq. split; eauto.
    + rewrite lookup_insert_ne by done. apply Hd.
Qed.

Lemma wf_generateJobs (s : t) (rnd : nat → Draw) : wf s → wf (generateJobs s rnd).
Proof.
  intros Hwf. unfold generateJobs. case_decide; [done|].
  destruct Hwf. by split.
Qed.

Lemma wf_step (s : t) (op : Op) : wf s → wf (step s op).
Proof.
  destruct op; simpl;
    auto using wf_registerDevice, wf_getJobBatchForDevice,
               wf_releaseJobSlot, wf_generateJobs.
Qed.

Lemma wf_run (ops : list Op) (s : t) : wf s → wf (run s ops).
Proof.
  revert s. induction ops as [|op ops IH]; intros s Hwf; [done|].
  simpl. apply IH. by apply wf_step.
Qed.

(** In a well-formed state a registered device's weight is at most the
    running total, so the guard [Math.max(1, totalWeight)] is the total. *)
Lemma wf_total_ge (s : t) (id : string) (w : Qc) :
  wf s → deviceWeights s !! id = Some w →
  (Qc_of_Z 1 ≤ w)%Qc ∧ (w ≤ totalWeight s)%Qc.
Proof.
  intros [Ht Hw _ _] Hi. split; [by apply (Hw id)|].
  rewrite Ht. apply (sumWeights_ge _ id); [|done].
  intros k v Hk. eapply Qcle_trans; [apply Qc_zero_le_one | by apply (Hw k)].
Qed.

End scheduler.

(** ** The coordinator's scheduler *)

Section coordinator.
Import SwarmCoordinator.

Lemma calculateWeight_same (device : DeviceInfo) :
  SwarmCoordinator.calculateWeight device = JobScheduler.calculateWeight device.
Proof. reflexivity. Qed.

Lemma generateJobs_queue (st : Storage) (rnd : nat → Draw) :
  default [] (queue st) = [] →
  ∃ q, queue (generateJobs st rnd) = Some q ∧ length q = 100%nat ∧
       quotas (generateJobs st rnd) = quotas st ∧
       weights (generateJobs st rnd) = weights st.
Proof.
  intros Hq. unfold generateJobs. rewrite Hq.
  rewrite decide_False by (simpl; lia). eexists. split; [reflexivity|].
  by rewrite length_app, length_map, length_seq.
Qed.

(** The refill of an empty queue stores the hundred generated jobs and
    nothing else. *)
Lemma generateJobs_empty (st : Storage) (rnd : nat → Draw) :
  default [] (queue st) = [] →
  generateJobs st rnd = put_queue (map (λ i, jobOfDraw (rnd i)) (seq 0 100)) st.
Proof.
  intros Hq. unfold generateJobs. rewrite Hq.
  by rewrite decide_False by (simpl; lia).
Qed.

(** With a quota on file, the body of [getJobBatchForDevice] runs on the
    state itself, or on the state with a refilled queue. *)
Lemma prepared_registered (st : Storage) (device : DeviceInfo) (rnd : nat → Draw)
    (quota : DeviceJobQuota) :
  quotas st !! dev_id device = Some quota →
  prepared st device rnd =
    if decide (maxConcurrent quota - activeJobs quota ≤ 0) then st
    else if decide (length (default [] (queue st)) = 0%nat)
         then put_queue (map (λ i, jobOfDraw (rnd i)) (seq 0 100)) st
         else st.
Proof.
  intros Hq. unfold prepared. rewrite Hq, Hq.
  case_decide; [done|]. case_decide as Hemp; [|done].
  apply generateJobs_empty. by apply nil_length_inv.
Qed.

Lemma getJobBatchFuel_S (fuel : nat) (st : Storage) (device : DeviceInfo)
    (rnd : nat → Draw) :
  getJobBatchFuel (S fuel) st device rnd =
    match quotas st !! dev_id device with
    | None => getJobBatchFuel fuel (registerDeviceInScheduler st device) device rnd
    | Some quota =>
        let availableSlots := maxConcurrent quota - activeJobs quota in
        if decide (availableSlots ≤ 0) then Some ([], st)
        else
          let q := default [] (queue st) in
          if decide (length q = 0%nat)
          then getJobBatchFuel fuel (generateJobs st rnd) device rnd
          else
            let batchSize :=
              Z.min (Z.min (share st device) availableSlots) (Z.of_nat (length q)) in
            let '(q', batch, active') :=
              batchLoop (Z.to_nat batchSize) (preferredType device)
                        q [] (activeJobs quota) in
            Some (batch,
                  put_queue q'
                    (put_quota (dev_id device) (set_activeJobs active' quota) st))
    end.
Proof. reflexivity. Qed.

(** The non-recursive part of [getJobBatchForDevice]: the quota is there,
    a slot is free and the queue is not empty. *)
Lemma getJobBatchFuel_body (fuel : nat) (st : Storage) (device : DeviceInfo)
    (rnd : nat → Draw) (quota : DeviceJobQuota) :
  quotas st !! dev_id device = Some quota →
  0 < maxConcurrent quota - activeJobs quota →
  default [] (queue st) ≠ [] →
  ∃ taken q',
    getJobBatchFuel (S fuel) st device rnd =
      Some (taken,
            put_queue q'
              (put_quota (dev_id device)
                 (set_activeJobs (activeJobs quota + Z.of_nat (length taken)) quota)
                 st)) ∧
    default [] (queue st) ≡ₚ taken ++ q' ∧
    Z.of_nat (length taken) =
      Z.min (Z.min (share st device) (maxConcurrent quota - activeJobs quota))
            (Z.of_nat (length (default [] (queue st)))).
Proof.
  intros Hq Hav Hne. rewrite getJobBatchFuel_S, Hq. cbv zeta.
  rewrite decide_False by lia.
  rewrite decide_False by (by intros ?%nil_length_inv).
  set (bs := Z.min _ _).
  destruct (batchLoop_spec (Z.to_nat bs) (preferredType device)
              (default [] (queue st)) [] (activeJobs quota))
    as (q' & tk & -> & Hp & Hl).
  exists tk, q'. repeat split; [done|].
  assert (1 ≤ share st device) by (unfold share; lia).
  subst bs. lia.
Qed.

Lemma registerDeviceInScheduler_quota (st : Storage) (device : DeviceInfo) :
  quotas (registerDeviceInScheduler st device) !! dev_id device =
    Some (mkQuota (dev_id device) (calculateWeight device) 0
            (Z.max 10 (Z_or (cpuCores (capabilities device)) 4 * 4))).
Proof. apply lookup_insert_eq. Qed.

(** [getJobBatchForDevice] always returns: with three levels or more the
    result is the body's result on the prepared state. *)
Lemma getJobBatchFuel_total (fuel : nat) (st : Storage) (device : DeviceInfo)
    (rnd : nat → Draw) :
  ∃ quota taken st',
    getJobBatchFuel (3 + fuel) st device rnd = Some (taken, st') ∧
    quotas (prepared st device rnd) !! dev_id device = Some quota ∧
    ((maxConcurrent quota - activeJobs quota ≤ 0 ∧ taken = [] ∧
      st' = prepared st device rnd) ∨
     (0 < maxConcurrent quota - activeJobs quota ∧
      ∃ q',
        st' = put_queue q'
                (put_quota (dev_id device)
                   (set_activeJobs (activeJobs quota + Z.of_nat (length taken)) quota)
                   (prepared st device rnd)) ∧
        default [] (queue (prepared st device rnd)) ≡ₚ taken ++ q' ∧
        Z.of_nat (length taken) =
          Z.min (Z.min (share (prepared st device rnd) device)
                       (maxConcurrent quota - activeJobs quota))
                (Z.of_nat (length (default [] (queue (prepared st device rnd))))))).
Proof.
  assert (Hcore : ∀ f st0 quota,
    quotas st0 !! dev_id device = Some quota →
    ∃ taken st',
      getJobBatchFuel (2 + f) st0 device rnd = Some (taken, st') ∧
      let stp := if decide (maxConcurrent quota - activeJobs quota ≤ 0) then st0
                 else if decide (length (default [] (queue st0)) = 0%nat)
                      then generateJobs st0 rnd else st0 in
      quotas stp !! dev_id device = Some quota ∧
      ((maxConcurrent quota - activeJobs quota ≤ 0 ∧ taken = [] ∧ st' = stp) ∨
       (0 < maxConcurrent quota - activeJobs quota ∧
        ∃ q',
          st' = put_queue q'
                  (put_quota (dev_id device)
                     (set_activeJobs (activeJobs quota + Z.of_nat (length taken)) quota)
                     stp) ∧
          default [] (queue stp) ≡ₚ taken ++ q' ∧
          Z.of_nat (length taken) =
            Z.min (Z.min (share stp device) (maxConcurrent quota - activeJobs quota))
                  (Z.of_nat (length (default [] (queue stp))))))).
  { intros f st0 quota Hq.
    destruct (decide (maxConcurrent quota - activeJobs quota ≤ 0)) as [Hfull|Hfree].
    { exists [], st0. change (2 + f)%nat with (S (S f)).
      rewrite getJobBatchFuel_S, Hq. cbv zeta. rewrite decide_True by done.
      split; [done|split; [done|by left]]. }
    destruct (decide (length (default [] (queue st0)) = 0%nat)) as [Hemp|Hne].
    - apply nil_length_inv in Hemp.
      destruct (generateJobs_queue st0 rnd Hemp) as (q & Hgq & Hlen & Hgquo & Hgw).
      destruct (getJobBatchFuel_body f (generateJobs st0 rnd) device rnd quota)
        as (tk & q' & Hrun & Hp & Hl).
      { by rewrite Hgquo. }
      { lia. }
      { rewrite Hgq. simpl. intros ->. done. }
      exists tk, (put_queue q'
                    (put_quota (dev_id device)
                       (set_activeJobs (activeJobs quota + Z.of_nat (length tk)) quota)
                       (generateJobs st0 rnd))).
      split.
      + change (2 + f)%nat with (S (S f)).
        rewrite (getJobBatchFuel_S (S f)), Hq. cbv zeta.
        rewrite decide_False by done. rewrite decide_True by (by rewrite Hemp).
        exact Hrun.
      + split; [by rewrite Hgquo|]. right. split; [lia|]. eauto.
    - destruct (getJobBatchFuel_body (S f) st0 device rnd quota)
        as (tk & q' & Hrun & Hp & Hl); [done|lia| |].
      { intros Hnil. rewrite Hnil in Hne. done. }
      exists tk, (put_queue q'
                    (put_quota (dev_id device)
                       (set_activeJobs (activeJobs quota + Z.of_nat (length tk)) quota)
                       st0)).
      split; [exact Hrun|]. split; [done|]. right. split; [lia|]. eauto. }
  unfold prepared.
  destruct (quotas st !! dev_id device) as [quota|] eqn:Hq.
  - rewrite Hq.
    destruct (Hcore (S fuel) st quota Hq) as (tk & st' & Hrun & Hstp & Hres).
    exists quota, tk, st'. split; [exact Hrun|]. split; [exact Hstp | exact Hres].
  - rewrite registerDeviceInScheduler_quota.
    destruct (Hcore fuel (registerDeviceInScheduler st device) _
                (registerDeviceInScheduler_quota st device))
      as (tk & st' & Hrun & Hstp & Hres).
    eexists _, tk, st'. split; [|split; [exact Hstp | exact Hres]].
    change (3 + fuel)%nat with (S (2 + fuel)).
    by rewrite getJobBatchFuel_S, Hq.
Qed.

End coordinator.

(** ** The device registry *)

Section registry.
Import DeviceManager.

(** The effect of the sweep on one key: the loop visits every record once
    and touches nothing but the record it visits. *)
Lemma sweep_fold_lookup (now : Z) (m m0 : gmap string DeviceInfo) (id : string) :
  (∀ k d, m !! k = Some d → m0 !! k = Some d) →
  map_fold (sweepEntry now) m0 m !! id =
    match m !! id with
    | Some d =>
        if decide (DELETE_THRESHOLD < now - lastHeartbeat d) then None
        else if decide (status d ≠ DISABLED ∧ OFFLINE_THRESHOLD < now - lastHeartbeat d)
             then Some (set_status OFFLINE d)
             else Some d
    | None => m0 !! id
    end.
Proof.
  induction m as [|i x m Hi Hfirst IH] using map_first_key_ind; intros Hagree.
  { by rewrite map_fold_empty, lookup_empty. }
  rewrite map_fold_insert_first_key by done.
  assert (Hagree' : ∀ k d, m !! k = Some d → m0 !! k = Some d).
  { intros k d Hk. apply Hagree. rewrite lookup_insert_ne; [done|].
    intros ->. congruence. }
  specialize (IH Hagree').
  destruct (decide (i = id)) as [->|Hne].
  - rewrite lookup_insert_eq. rewrite Hi in IH. unfold sweepEntry at 1.
    destruct (decide (DELETE_THRESHOLD < now - lastHeartbeat x)).
    { apply lookup_delete_eq. }
    destruct (decide (status x ≠ DISABLED ∧ OFFLINE_THRESHOLD < now - lastHeartbeat x)).
    { apply lookup_insert_eq. }
    rewrite IH. apply Hagree, lookup_insert_eq.
  - rewrite lookup_insert_ne by done. rewrite <-IH. unfold sweepEntry at 1.
    destruct (decide (DELETE_THRESHOLD < now - lastHeartbeat x)).
    { by apply lookup_delete_ne. }
    destruct (decide (status x ≠ DISABLED ∧ OFFLINE_THRESHOLD < now - lastHeartbeat x)).
    { by apply lookup_insert_ne. }
    done.
Qed.

Lemma cleanup_lookup (devices : gmap string DeviceInfo) (now : Z) (id : string) :
  cleanup devices now !! id =
    match devices !! id with
    | Some d =>
        if decide (DELETE_THRESHOLD < now - lastHeartbeat d) then None
        else if decide (status d ≠ DISABLED ∧ OFFLINE_THRESHOLD < now - lastHeartbeat d)
             then Some (set_status OFFLINE d)
             else Some d
    | None => None
    end.
Proof.
  unfold cleanup. rewrite sweep_fold_lookup by done.
  by destruct (devices !! id) eqn:E.
Qed.

Lemma coordinator_cleanup_same (st : SwarmCoordinator.Storage) (now : Z) :
  SwarmCoordinator.devices (SwarmCoordinator.cleanup st now) =
    cleanup (SwarmCoordinator.devices st) now.
Proof. reflexivity. Qed.

Lemma beat_status_disabled (now : Z) (data : option Z) (d : DeviceInfo) :
  status d = DISABLED → status (beat now data d) = DISABLED.
Proof.
  intros Hd. unfold beat.
  destruct data as [li|]; [destruct (decide (li = 0))|]; simpl;
    rewrite Hd; rewrite decide_False by (intros [?|?]; discriminate); simpl; done.
Qed.

(** A record that is absent or DISABLED stays so under every call that is
    not a re-enabling one. *)
Lemma disabled_step (devices : gmap string DeviceInfo) (op : Op) (id : string) :
  (∀ d, devices !! id = Some d → status d = DISABLED) →
  ¬ reenables id op →
  ∀ d', step devices op !! id = Some d' → status d' = DISABLED.
Proof.
  intros Hdis Hop d'. destruct op as [i n c sw t|i data t|i en|i sc|i|t]; simpl in *.
  - unfold register. rewrite lookup_insert_ne by done. apply Hdis.
  - unfold heartbeat. destruct (devices !! i) as [dv|] eqn:Ei; [|apply Hdis].
    destruct (decide (i = id)) as [->|Hne].
    + rewrite lookup_insert_eq. intros [= <-]. apply beat_status_disabled. by apply Hdis.
    + rewrite lookup_insert_ne by done. apply Hdis.
  - unfold toggleDevice. destruct (devices !! i) as [dv|] eqn:Ei; [|apply Hdis].
    destruct (decide (i = id)) as [->|Hne].
    + rewrite lookup_insert_eq. intros [= <-]. by destruct en.
    + rewrite lookup_insert_ne by done. apply Hdis.
  - unfold updateScore. destruct (devices !! i) as [dv|] eqn:Ei; [|apply Hdis].
    destruct (decide (i = id)) as [->|Hne].
    + rewrite lookup_insert_eq. intros [= <-]. simpl. by apply Hdis.
    + rewrite lookup_insert_ne by done. apply Hdis.
  - unfold remove. intros H. apply lookup_delete_Some in H as [_ H]. by apply Hdis.
  - rewrite cleanup_lookup. destruct (devices !! id) as [dv|] eqn:Ei; [|done].
    pose proof (Hdis dv eq_refl) as Hs.
    destruct (decide (DELETE_THRESHOLD < t - lastHeartbeat dv)); [done|].
    rewrite decide_False by (intros [? _]; done). by intros [= <-].
Qed.

Lemma disabled_run (ops : list Op) (devices : gmap string DeviceInfo) (id : string) :
  (∀ d, devices !! id = Some d → status d = DISABLED) →
  Forall (λ op, ¬ reenables id op) ops →
  ∀ d', run devices ops !! id = Some d' → status d' = DISABLED.
Proof.
  revert devices. induction ops as [|op ops IH]; intros devices Hdis Hops; simpl.
  { exact Hdis. }
  apply Forall_cons in Hops as [Hop Hops].
  apply IH; [|done]. by apply disabled_step.
Qed.

Lemma beat_fields (t : Z) (data : option Z) (d : DeviceInfo) :
  lastHeartbeat (beat t data d) = t ∧
  status (beat t data d) ≠ OFFLINE ∧ status (beat t data d) ≠ REGISTERED ∧
  (status d ≠ OFFLINE → status d ≠ REGISTERED → status (beat t data d) = status d) ∧
  (status d = OFFLINE ∨ status d = REGISTERED → status (beat t data d) = ONLINE) ∧
  opsScore (beat t data d) = opsScore d ∧ dev_id (beat t data d) = dev_id d ∧
  swarmId (beat t data d) = swarmId d.
Proof.
  unfold beat.
  destruct data as [li|]; [destruct (decide (li = 0))|];
    simpl;
    destruct (decide (status d = OFFLINE ∨ status d = REGISTERED)); simpl;
    intuition congruence.
Qed.

End registry.

(** ** Invite tokens *)

Section tokens.
Import AuthManager.

Lemma filter_Forall_id {A} (P : A → Prop) `{∀ x, Decision (P x)} (l : list A) :
  Forall P l → filter P l = l.
Proof.
  induction 1 as [|x l Hx _ IH]; [done|].
  rewrite filter_cons_True by done. by rewrite IH.
Qed.

Lemma recentGenerations_lookup (s : t) (swarm : string) (now : Z) (l : list Z) :
  tokenGenerationLog s !! swarm = Some l →
  recentGenerations s swarm now = filter (λ t, now - 60000 < t) l.
Proof. intros H. unfold recentGenerations. by rewrite H. Qed.

Lemma generateToken_ok (s : t) (swarm : string) (now now2 : Z) (rnd : string) :
  (length (recentGenerations s swarm now) < 5)%nat →
  fst (generateToken s swarm now now2 rnd) = Some rnd ∧
  tokenGenerationLog (snd (generateToken s swarm now now2 rnd)) !! swarm =
    Some (recentGenerations s swarm now ++ [now]) ∧
  activeTokens (snd (generateToken s swarm now now2 rnd)) !! rnd =
    Some (mkToken swarm (now2 + TOKEN_TTL_MS)).
Proof.
  intros H. unfold generateToken. rewrite decide_False by lia. simpl.
  by rewrite !lookup_insert_eq.
Qed.

Lemma generateToken_limited (s : t) (swarm : string) (now now2 : Z) (rnd : string) :
  (5 ≤ length (recentGenerations s swarm now))%nat →
  generateToken s swarm now now2 rnd = (None, s).
Proof. intros H. unfold generateToken. by rewrite decide_True. Qed.

Lemma generateToken_other (s : t) (swarm other : string) (now now2 : Z)
    (rnd : string) :
  other ≠ swarm →
  tokenGenerationLog (snd (generateToken s swarm now now2 rnd)) !! other =
    tokenGenerationLog s !! other.
Proof.
  intros Hne. unfold generateToken. case_decide; [done|].
  simpl. by rewrite lookup_insert_ne.
Qed.

Lemma generateTokens_cons (s : t) (swarm : string) (now now2 : Z) (rnd : string)
    (calls : list (Z * Z * string)) :
  generateTokens s swarm ((now, now2, rnd) :: calls) =
    (fst (generateToken s swarm now now2 rnd) ::
       fst (generateTokens (snd (generateToken s swarm now now2 rnd)) swarm calls),
     snd (generateTokens (snd (generateToken s swarm now now2 rnd)) swarm calls)).
Proof.
  simpl. destruct (generateToken s swarm now now2 rnd) as [r s1]. simpl.
  by destruct (generateTokens s1 swarm calls).
Qed.

Lemma generateTokens_other (calls : list (Z * Z * string)) (s : t)
    (swarm other : string) :
  other ≠ swarm →
  tokenGenerationLog (snd (generateTokens s swarm calls)) !! other =
    tokenGenerationLog s !! other.
Proof.
  intros Hne. revert s.
  induction calls as [|[[now now2] rnd] calls IH]; intros s; [done|].
  rewrite generateTokens_cons. simpl. rewrite IH. by apply generateToken_other.
Qed.

Lemma generateTokens_app (a b : list (Z * Z * string)) (s : t) (swarm : string) :
  generateTokens s swarm (a ++ b) =
    (fst (generateTokens s swarm a) ++
       fst (generateTokens (snd (generateTokens s swarm a)) swarm b),
     snd (generateTokens (snd (generateTokens s swarm a)) swarm b)).
Proof.
  revert s. induction a as [|[[now now2] rnd] a IH]; intros s.
  { simpl. by destruct (generateTokens s swarm b). }
  rewrite <-app_comm_cons, !generateTokens_cons, IH. done.
Qed.

(** While the history and the calls all lie in one window of 60 seconds
    and together count at most five, every call is served and recorded. *)
Lemma generateTokens_fill (calls : list (Z * Z * string)) (s : t) (swarm : string)
    (l : list Z) (lo : Z) :
  tokenGenerationLog s !! swarm = Some l →
  Forall (λ t, lo ≤ t < lo + 60000) l →
  Forall (λ c, lo ≤ c.1.1 < lo + 60000) calls →
  (length l + length calls ≤ 5)%nat →
  fst (generateTokens s swarm calls) = map (λ c, Some (snd c)) calls ∧
  tokenGenerationLog (snd (generateTokens s swarm calls)) !! swarm =
    Some (l ++ map (λ c, c.1.1) calls).
Proof.
  revert s l.
  induction calls as [|[[now now2] rnd] calls IH]; intros s l Hl Hwin Hcalls Hlen.
  { simpl. by rewrite app_nil_r. }
  apply Forall_cons in Hcalls as [Hnow Hcalls]. simpl in Hnow, Hlen.
  assert (Hrec : recentGenerations s swarm now = l).
  { rewrite (recentGenerations_lookup s swarm now l Hl).
    apply filter_Forall_id. eapply Forall_impl; [exact Hwin|].
    intros t Ht. simpl in Ht. lia. }
  destruct (generateToken_ok s swarm now now2 rnd) as (Hr & Hlog & _).
  { rewrite Hrec. lia. }
  rewrite Hrec in Hlog.
  destruct (IH (snd (generateToken s swarm now now2 rnd)) (l ++ [now]))
    as [Hres Hlog'].
  - exact Hlog.
  - apply Forall_app. split; [done|]. apply Forall_singleton. exact Hnow.
  - done.
  - rewrite length_app. simpl. lia.
  - rewrite generateTokens_cons. cbn [fst snd]. rewrite Hr, Hres, Hlog'.
    split; [done|]. by rewrite <-app_assoc.
Qed.

(** Six calls in one window and a seventh after the first has left it. *)
Lemma generateTokens_window (s : t) (swarm : string)
    (t1 t2 t3 t4 t5 t6 t7 e1 e2 e3 e4 e5 e6 e7 : Z)
    (r1 r2 r3 r4 r5 r6 r7 : string) :
  recentGenerations s swarm t1 = [] →
  t1 ≤ t2 ≤ t3 → t3 ≤ t4 ≤ t5 → t5 ≤ t6 < t1 + 60000 →
  t6 ≤ t7 → t1 + 60000 ≤ t7 →
  fst (generateTokens s swarm
         [(t1, e1, r1); (t2, e2, r2); (t3, e3, r3); (t4, e4, r4); (t5, e5, r5);
          (t6, e6, r6); (t7, e7, r7)]) =
    [Some r1; Some r2; Some r3; Some r4; Some r5; None; Some r7].
Proof.
  intros H0 H12 H34 H56 H7 Hslid.
  change [(t1, e1, r1); (t2, e2, r2); (t3, e3, r3); (t4, e4, r4); (t5, e5, r5);
          (t6, e6, r6); (t7, e7, r7)]
    with ((t1, e1, r1) :: ([(t2, e2, r2); (t3, e3, r3); (t4, e4, r4); (t5, e5, r5)] ++
                           [(t6, e6, r6); (t7, e7, r7)])).
  (* the first call finds an empty window *)
  destruct (generateToken_ok s swarm t1 e1 r1) as (Hr1 & Hl1 & _).
  { rewrite H0. simpl. lia. }
  rewrite H0 in Hl1. cbn [app] in Hl1.
  rewrite generateTokens_cons. cbn [fst snd].
  rewrite Hr1. generalize dependent (snd (generateToken s swarm t1 e1 r1)).
  intros s1 Hl1.
  (* the next four fill it *)
  destruct (generateTokens_fill [(t2, e2, r2); (t3, e3, r3); (t4, e4, r4); (t5, e5, r5)]
              s1 swarm [t1] t1 Hl1) as [Hr25 Hl5].
  { repeat constructor; lia. }
  { repeat constructor; simpl; lia. }
  { simpl. lia. }
  rewrite generateTokens_app. cbn [fst snd]. rewrite Hr25.
  cbn [fst snd map app] in Hl5.
  generalize dependent (snd (generateTokens s1 swarm
                               [(t2, e2, r2); (t3, e3, r3); (t4, e4, r4); (t5, e5, r5)])).
  intros s5 Hl5.
  (* the sixth is refused and leaves the state as it is *)
  rewrite generateTokens_cons.
  rewrite (generateToken_limited s5 swarm t6 e6 r6).
  2:{ rewrite (recentGenerations_lookup s5 swarm t6 _ Hl5).
      rewrite filter_Forall_id by (repeat constructor; lia). simpl. lia. }
  cbn [fst snd].
  (* at the seventh the first issuance has left the window *)
  rewrite generateTokens_cons.
  destruct (generateToken_ok s5 swarm t7 e7 r7) as (-> & _); [|done].
  rewrite (recentGenerations_lookup s5 swarm t7 _ Hl5).
  rewrite filter_cons_False by lia.
  eapply Nat.le_lt_trans; [apply length_filter|]. simpl. lia.
Qed.

(** The coordinator's handler is [generateToken] on the stored history of
    its own swarm, with one clock reading for both uses; its reply is the
    token, or the empty string for [null]. *)
Lemma handleGenerateToken_refines (st : SwarmCoordinator.Storage) (s : t)
    (now now2 : Z) (rnd : string) :
  tokenGenerationLog s = SwarmCoordinator.ratelimit st →
  let r := generateToken s (SwarmCoordinator.self_id st) now now2 rnd in
  fst (SwarmCoordinator.handleGenerateToken st now rnd) = default EmptyString (fst r) ∧
  SwarmCoordinator.ratelimit (snd (SwarmCoordinator.handleGenerateToken st now rnd)) =
    tokenGenerationLog (snd r) ∧
  SwarmCoordinator.self_id (snd (SwarmCoordinator.handleGenerateToken st now rnd)) =
    SwarmCoordinator.self_id st.
Proof.
  intros Hlog.
  unfold SwarmCoordinator.handleGenerateToken, generateToken,
    SwarmCoordinator.recentGenerations, recentGenerations. rewrite Hlog. simpl.
  by case_decide.
Qed.

Lemma handleGenerateTokens_cons (st : SwarmCoordinator.Storage) (now : Z)
    (rnd : string) (calls : list (Z * string)) :
  SwarmCoordinator.handleGenerateTokens st ((now, rnd) :: calls) =
    (fst (SwarmCoordinator.handleGenerateToken st now rnd) ::
       fst (SwarmCoordinator.handleGenerateTokens
              (snd (SwarmCoordinator.handleGenerateToken st now rnd)) calls),
     snd (SwarmCoordinator.handleGenerateTokens
            (snd (SwarmCoordinator.handleGenerateToken st now rnd)) calls)).
Proof.
  simpl. destruct (SwarmCoordinator.handleGenerateToken st now rnd) as [r st1]. simpl.
  by destruct (SwarmCoordinator.handleGenerateTokens st1 calls).
Qed.

Lemma handleGenerateTokens_refines (calls : list (Z * string))
    (st : SwarmCoordinator.Storage) (s : t) :
  tokenGenerationLog s = SwarmCoordinator.ratelimit st →
  fst (SwarmCoordinator.handleGenerateTokens st calls) =
    default EmptyString <$>
      fst (generateTokens s (SwarmCoordinator.self_id st)
             ((λ c, (c.1, c.1, c.2)) <$> calls)).
Proof.
  revert st s. induction calls as [|[now rnd] calls IH]; intros st s Hlog; [done|].
  rewrite fmap_cons. cbn [fst snd].
  rewrite handleGenerateTokens_cons, generateTokens_cons. cbn [fst snd].
  destruct (handleGenerateToken_refines st s now now rnd Hlog) as (Hr & Hl & Hid).
  rewrite fmap_cons, Hr. f_equal.
  rewrite (IH _ (snd (generateToken s (SwarmCoordinator.self_id st) now now rnd)))
    by done.
  by rewrite Hid.
Qed.

End tokens.

(** ** The coordinator's invariant *)

Section coordinator_invariant.
Import SwarmCoordinator.

Lemma cwf_ext (st st' : Storage) :
  self_id st' = self_id st → devices st' = devices st →
  quotas st' = quotas st → weights st' = weights st →
  wf st → wf st'.
Proof.
  intros Hs Hd Hq Hw [H1 H2 H3 H4]. split; rewrite ?Hs, ?Hd, ?Hq, ?Hw; done.
Qed.

Lemma cwf_init (id : string) : wf (init id).
Proof.
  split; simpl.
  - apply map_Forall_empty.
  - intros k [d Hd]. by rewrite lookup_empty in Hd.
  - apply map_Forall_empty.
  - apply map_Forall_empty.
Qed.

Lemma cwf_registerDeviceInScheduler (st : Storage) (device : DeviceInfo) :
  wf st → wf (registerDeviceInScheduler st device).
Proof.
  intros [H1 H2 H3 H4]. split; simpl.
  - done.
  - intros k Hk. destruct (decide (dev_id device = k)) as [->|Hne].
    + rewrite lookup_insert_eq. eauto.
    + rewrite lookup_insert_ne by done. by apply H2.
  - apply map_Forall_insert_2; [simpl; lia | done].
  - apply map_Forall_insert_2; [apply calculateWeight_ge_1 | done].
Qed.

(** Writing a device record and registering it in the scheduler, as
    [handleRegister] and [handleBenchmarkResult] do. *)
Lemma cwf_put_and_register (st : Storage) (k : string) (d : DeviceInfo) :
  dev_id d = k → swarmId d = Some (self_id st) →
  wf st → wf (registerDeviceInScheduler (put_device k d st) d).
Proof.
  intros Hk Hsw [H1 H2 H3 H4]. split; simpl.
  - apply map_Forall_insert_2; [done|done].
  - intros k' Hk'. rewrite Hk. destruct (decide (k = k')) as [->|Hne].
    + rewrite lookup_insert_eq. eauto.
    + rewrite lookup_insert_ne by done. rewrite lookup_insert_ne in Hk' by done.
      by apply H2.
  - apply map_Forall_insert_2; [simpl; lia | done].
  - apply map_Forall_insert_2; [apply calculateWeight_ge_1 | done].
Qed.

(** Rewriting a stored device without touching its identity. *)
Lemma cwf_update_device (st : Storage) (k : string) (d0 d : DeviceInfo) :
  devices st !! k = Some d0 → dev_id d = dev_id d0 → swarmId d = swarmId d0 →
  wf st → wf (put_device k d st).
Proof.
  intros Hd0 Hid Hsw [H1 H2 H3 H4]. split; simpl; [| |done|done].
  - apply map_Forall_insert_2; [|done]. rewrite Hid, Hsw. by apply (H1 k).
  - intros k' Hk'. destruct (decide (k = k')) as [<-|Hne].
    + apply H2. by rewrite Hd0.
    + rewrite lookup_insert_ne in Hk' by done. by apply H2.
Qed.

Lemma cwf_put_quota (st : Storage) (k : string) (q : DeviceJobQuota) :
  0 ≤ activeJobs q ≤ maxConcurrent q → wf st → wf (put_quota k q st).
Proof.
  intros Hq [H1 H2 H3 H4]. split; simpl; [done| |by apply map_Forall_insert_2|done].
  intros k' Hk'. destruct (decide (k = k')) as [<-|Hne].
  - rewrite lookup_insert_eq. eauto.
  - rewrite lookup_insert_ne by done. by apply H2.
Qed.

Lemma cwf_releaseJobSlot (st : Storage) (id : string) (d : option Z) :
  wf st → wf (releaseJobSlot st id d).
Proof.
  intros Hwf. unfold releaseJobSlot.
  destruct (quotas st !! id) as [quota|] eqn:Hq; [|done].
  destruct (decide (0 < activeJobs quota)); [|done].
  pose proof (wf_quota_bounds _ Hwf _ _ Hq) as Hb. simpl in Hb.
  apply cwf_put_quota; [|done].
  destruct d as [d0|]; [destruct (decide (d0 ≠ 0 ∧ 0 < d0))|]; simpl; lia.
Qed.

Lemma cwf_generateJobs (st : Storage) (rnd : nat → Draw) :
  wf st → wf (generateJobs st rnd).
Proof.
  intros Hwf. unfold generateJobs. case_decide; [done|].
  by apply (cwf_ext st).
Qed.

Lemma cwf_prepared (st : Storage) (device : DeviceInfo) (rnd : nat → Draw) :
  wf st → wf (prepared st device rnd).
Proof.
  intros Hwf. unfold prepared.
  set (st1 := match quotas st !! dev_id device with
              | Some _ => st | None => registerDeviceInScheduler st device end).
  assert (Hwf1 : wf st1).
  { subst st1. destruct (quotas st !! dev_id device); [done|].
    by apply cwf_registerDeviceInScheduler. }
  destruct (quotas st1 !! dev_id device); [|done].
  case_decide; [done|]. case_decide; [|done]. by apply cwf_generateJobs.
Qed.

(** [getJobBatchForDevice] in terms of the prepared state. *)
Lemma getJobBatchForDevice_result (st : Storage) (device : DeviceInfo)
    (rnd : nat → Draw) :
  ∃ quota,
    quotas (prepared st device rnd) !! dev_id device = Some quota ∧
    ((maxConcurrent quota - activeJobs quota ≤ 0 ∧
      getJobBatchForDevice st device rnd = ([], prepared st device rnd)) ∨
     (0 < maxConcurrent quota - activeJobs quota ∧
      ∃ taken q',
        getJobBatchForDevice st device rnd =
          (taken,
           put_queue q'
             (put_quota (dev_id device)
                (set_activeJobs (activeJobs quota + Z.of_nat (length taken)) quota)
                (prepared st device rnd))) ∧
        default [] (queue (prepared st device rnd)) ≡ₚ taken ++ q' ∧
        Z.of_nat (length taken) =
          Z.min (Z.min (share (prepared st device rnd) device)
                       (maxConcurrent quota - activeJobs quota))
                (Z.of_nat (length (default [] (queue (prepared st device rnd))))))).
Proof.
  destruct (getJobBatchFuel_total 0 st device rnd)
    as (quota & tk & st' & Hrun & Hq & Hres).
  exists quota. split; [done|]. unfold getJobBatchForDevice.
  change (3 + 0)%nat with 3%nat in Hrun. rewrite Hrun. simpl.
  destruct Hres as [(Hfull & -> & ->) | (Hfree & q' & -> & Hp & Hl)].
  - by left.
  - right. split; [done|]. by exists tk, q'.
Qed.

Lemma cwf_getJobBatchForDevice (st : Storage) (device : DeviceInfo)
    (rnd : nat → Draw) :
  wf st → wf (snd (getJobBatchForDevice st device rnd)).
Proof.
  intros Hwf. pose proof (cwf_prepared st device rnd Hwf) as Hp.
  destruct (getJobBatchForDevice_result st device rnd)
    as (quota & Hq & [(_ & ->) | (Hfree & tk & q' & -> & _ & Hl)]); [done|].
  simpl. pose proof (wf_quota_bounds _ Hp _ _ Hq) as Hb. simpl in Hb.
  eapply cwf_ext; [| | | |apply (cwf_put_quota (prepared st device rnd)
                                    (dev_id device)
                                    (set_activeJobs
                                       (activeJobs quota + Z.of_nat (length tk)) quota))];
    try done.
  simpl. lia.
Qed.

Lemma cwf_cleanup (st : Storage) (now : Z) : wf st → wf (cleanup st now).
Proof.
  intros [H1 H2 H3 H4]. split; simpl; [| |done|done].
  - intros k d. change (map_fold (sweepEntry now) (devices st) (devices st))
      with (DeviceManager.cleanup (devices st) now).
    rewrite cleanup_lookup. destruct (devices st !! k) as [d0|] eqn:Hk; [|done].
    pose proof (H1 k d0 Hk) as Hd0.
    repeat case_decide; intros [= <-]; done.
  - intros k. change (map_fold (sweepEntry now) (devices st) (devices st))
      with (DeviceManager.cleanup (devices st) now).
    rewrite cleanup_lookup. intros Hk. apply H2.
    destruct (devices st !! k); [eauto|]. by destruct Hk.
Qed.

Lemma cwf_step (st : Storage) (ev : Event) : wf st → wf (step st ev).
Proof.
  intros Hwf. destruct ev as [pid msg env|pid|now]; simpl.
  - destruct msg as [name caps|data| |chunk err dur|r|v|score|id en| |]; simpl.
    + unfold handleRegister. by apply cwf_put_and_register.
    + unfold handleHeartbeat. destruct (devices st !! pid) as [d|] eqn:Hd; [|done].
      pose proof (beat_fields (env_now env) data d) as (_ & _ & _ & _ & _ & _ & Hid & Hsw).
      by apply (cwf_update_device st pid d).
    + unfold handleJobRequest.
      assert (Hsame : wf (snd (@pair (list Job) Storage [] st))) by done.
      destruct (runState st) as [[]|]; simpl; try done.
      destruct (devices st !! pid) as [d|]; simpl; [|done].
      case_decide; simpl; [done|].
      pose proof (cwf_getJobBatchForDevice st d (env_jobs env) Hwf) as Hb.
      by destruct (getJobBatchForDevice st d (env_jobs env)).
    + unfold handleJobComplete.
      pose proof (cwf_releaseJobSlot st pid dur Hwf) as Hr.
      destruct err; [done|].
      set (st2 := put_completed _ _).
      assert (Hwf2 : wf st2) by by apply (cwf_ext (releaseJobSlot st pid dur)).
      destruct (devices st2 !! pid) as [d|] eqn:Hd; [|done].
      by apply (cwf_update_device st2 pid d).
    + by apply (cwf_ext st).
    + by apply (cwf_ext st).
    + unfold handleBenchmarkResult.
      destruct (devices st !! pid) as [d|] eqn:Hd; [|done].
      destruct (wf_device_key _ Hwf _ _ Hd) as [Hid Hsw].
      by apply cwf_put_and_register.
    + unfold handleToggleDevice. destruct (devices st !! id) as [d|] eqn:Hd; [|done].
      by apply (cwf_update_device st id d).
    + unfold handleGenerateToken. case_decide; simpl; [done|].
      by apply (cwf_ext st).
    + done.
  - unfold handleDisconnect. destruct (devices st !! pid) as [d|] eqn:Hd; [|done].
    case_decide; [|done]. by apply (cwf_update_device st pid d).
  - by apply cwf_cleanup.
Qed.

Lemma cwf_run (evs : list Event) (st : Storage) : wf st → wf (run st evs).
Proof.
  revert st. induction evs as [|ev evs IH]; intros st Hwf; [done|].
  simpl. apply IH. by apply cwf_step.
Qed.

End coordinator_invariant.

(** ** Claims about the scheduler *)

Section scheduler_claims.
Import JobScheduler.

(** C1. After any sequence of [registerDevice], [getJobBatchForDevice],
    [releaseJobSlot] and [generateJobs] calls on a fresh scheduler, every
    device's quota satisfies [0 ≤ activeJobs ≤ maxConcurrent]. *)
Theorem quota_bounds_invariant (ops : list Op) (id : string) (q : DeviceJobQuota) :
  deviceQuotas (run init ops) !! id = Some q →
  0 ≤ activeJobs q ≤ maxConcurrent q.
Proof.
  intros Hq. pose proof (wf_run ops init wf_init) as Hwf.
  exact (wf_quotas _ Hwf id q Hq).
Qed.

Lemma quota_bounds_witness :
  ∃ q, deviceQuotas (run init sampleOps) !! "D" = Some q ∧
       0 ≤ activeJobs q ≤ maxConcurrent q.
Proof.
  destruct (deviceQuotas (run init sampleOps) !! "D") as [q|] eqn:E.
  - exists q. split; [reflexivity|]. exact (quota_bounds_invariant sampleOps "D" q E).
  - exfalso. vm_compute in E. discriminate E.
Defined.

(** C4. After any sequence of calls the running [totalWeight] is the sum
    of the registered weights; [registerDevice] moves it by the difference
    to the device's previous weight, so registering twice counts once, and
    a [getJobBatchForDevice] right after a registration finds the total
    equal to the sum. *)
Theorem totalWeight_is_sum (ops : list Op) (device : DeviceInfo) (n : Z) :
  let s := run init ops in
  let s1 := registerDevice s device in
  let s2 := snd (getJobBatchForDevice s1 device n) in
  totalWeight s = sumWeights (deviceWeights s) ∧
  totalWeight s1 =
    (totalWeight s +
     (calculateWeight device - default (Q2Qc 0) (deviceWeights s !! dev_id device)))%Qc ∧
  totalWeight (registerDevice s1 device) = totalWeight s1 ∧
  totalWeight s2 = sumWeights (deviceWeights s2).
Proof.
  intros s s1 s2. pose proof (wf_run ops init wf_init) as Hwf. fold s in Hwf.
  repeat split.
  - apply Hwf.
  - subst s1. simpl. by rewrite get_or_0.
  - subst s1. simpl. rewrite lookup_insert_eq. simpl.
    rewrite Qc_or_0. ring.
  - subst s2 s1. apply wf_total, wf_getJobBatchForDevice, wf_registerDevice, Hwf.
Qed.

(** In a reachable state the guarded share of the code is the share of
    the specification. *)
Lemma share_registered (s : t) (device : DeviceInfo) (w : Qc) (n : Z) :
  wf s → deviceWeights s !! dev_id device = Some w →
  share s device n =
    Z.max 1 (Qc_floor (w / totalWeight s * Qc_of_Z n * Qc_of_Z 3)%Qc).
Proof.
  intros Hwf Hw. destruct (wf_total_ge s _ w Hwf Hw) as [H1 Hle].
  unfold share. rewrite Hw. simpl.
  rewrite Qc_or_pos by (eapply Qclt_le_trans; [apply Qc_one_pos | done]).
  rewrite Qc_max_r by (by eapply Qcle_trans). done.
Qed.

(** The same for the coordinator, whose multiplier is the constant 30. *)
Lemma coordinator_share_registered (st : SwarmCoordinator.Storage)
    (device : DeviceInfo) (w : Qc) :
  SwarmCoordinator.wf st →
  default ∅ (SwarmCoordinator.weights st) !! dev_id device = Some w →
  SwarmCoordinator.share st device =
    Z.max 1 (Qc_floor (w / sumWeights (default ∅ (SwarmCoordinator.weights st))
                       * Qc_of_Z 30)%Qc).
Proof.
  intros Hwf Hw. pose proof (SwarmCoordinator.wf_weights_ge_1 _ Hwf) as Hge.
  pose proof (Hge _ _ Hw) as H1. simpl in H1.
  assert (Hle : (w ≤ sumWeights (default ∅ (SwarmCoordinator.weights st)))%Qc).
  { apply (sumWeights_ge _ (dev_id device)); [|done].
    intros k v Hk. eapply Qcle_trans; [apply Qc_zero_le_one | by apply (Hge k)]. }
  unfold SwarmCoordinator.share. rewrite Hw. simpl.
  rewrite Qc_or_pos by (eapply Qclt_le_trans; [apply Qc_one_pos | done]).
  rewrite Qc_max_r by (by eapply Qcle_trans). done.
Qed.

(** C2 as stated fails in the coordinator.  A device has registered and
    the swarm has been set RUNNING; the device has 16 free slots and the
    stored queue is empty, so that [min(share, availableSlots, queueLength)]
    is [0].  The coordinator refills the queue first and hands out 16 jobs,
    which is also what the device receives in reply to [job:request_batch]. *)
Lemma coordinator_refills_empty_queue :
  let st := SwarmCoordinator.run (SwarmCoordinator.init "S") (take 2 sampleEvents) in
  let batch := fst (SwarmCoordinator.getJobBatchForDevice st dev4 sampleDraw) in
  (λ q, maxConcurrent q - activeJobs q) <$> SwarmCoordinator.quotas st !! "D" = Some 16 ∧
  length (default [] (SwarmCoordinator.queue st)) = 0%nat ∧
  length batch = 16%nat ∧
  ¬ (Z.of_nat (length batch) ≤
       Z.min (Z.min (SwarmCoordinator.share st dev4) 16)
             (Z.of_nat (length (default [] (SwarmCoordinator.queue st))))) ∧
  match fst (SwarmCoordinator.handleMessage st "D" SwarmCoordinator.JobRequestBatch
               sampleEnv) with
  | SwarmCoordinator.JobBatchReply sent => length sent = 16%nat
  | _ => False
  end.
Proof. vm_compute. repeat split. intros H. by apply H. Qed.

(** C2, amended. For a registered device,
    [JobScheduler.getJobBatchForDevice] returns at most
    [min(share, availableSlots, queueLength)] jobs, with
    [share = max(1, floor(weight / totalWeight * requestedCount * 3))] and
    [availableSlots = maxConcurrent - activeJobs]; it returns the empty
    list when no slot is available; the returned jobs are taken out of the
    pending queue.  [SwarmCoordinator.getJobBatchForDevice] has no
    [requestedCount]: its share is
    [max(1, floor(weight / totalWeight * 30))]; and when a slot is free and
    the stored queue is empty it first stores 100 generated jobs.  It obeys
    the same bound with [queueLength] the length of the queue the batch is
    drawn from, which is the refilled queue in that case, and the returned
    jobs are taken out of that queue. *)
Theorem requestBatch_bounded (ops : list Op) (device : DeviceInfo)
    (quota : DeviceJobQuota) (w : Qc) (requestedCount : Z)
    (id : string) (evs : list SwarmCoordinator.Event) (cdevice : DeviceInfo)
    (cquota : DeviceJobQuota) (cw : Qc) (rnd : nat → Draw) :
  let s := run init ops in
  let shareOfDevice :=
    Z.max 1 (Qc_floor (w / totalWeight s * Qc_of_Z requestedCount * Qc_of_Z 3)%Qc) in
  let availableSlots := maxConcurrent quota - activeJobs quota in
  let batch := fst (getJobBatchForDevice s device requestedCount) in
  let s' := snd (getJobBatchForDevice s device requestedCount) in
  let st := SwarmCoordinator.run (SwarmCoordinator.init id) evs in
  let weights := default ∅ (SwarmCoordinator.weights st) in
  let stored := default [] (SwarmCoordinator.queue st) in
  let pending :=
    if decide (length stored = 0%nat)
    then map (λ i, jobOfDraw (rnd i)) (seq 0 100) else stored in
  let cshare := Z.max 1 (Qc_floor (cw / sumWeights weights * Qc_of_Z 30)%Qc) in
  let cavailable := maxConcurrent cquota - activeJobs cquota in
  let cbatch := fst (SwarmCoordinator.getJobBatchForDevice st cdevice rnd) in
  let st' := snd (SwarmCoordinator.getJobBatchForDevice st cdevice rnd) in
  (deviceQuotas s !! dev_id device = Some quota →
   deviceWeights s !! dev_id device = Some w →
   (availableSlots ≤ 0 → batch = [] ∧ s' = s) ∧
   Z.of_nat (length batch) ≤
     Z.min (Z.min shareOfDevice availableSlots) (Z.of_nat (length (jobQueue s))) ∧
   jobQueue s ≡ₚ batch ++ jobQueue s' ∧
   (NoDup (jobQueue s) → NoDup batch ∧ ∀ j, j ∈ batch → j ∉ jobQueue s')) ∧
  (SwarmCoordinator.quotas st !! dev_id cdevice = Some cquota →
   weights !! dev_id cdevice = Some cw →
   (cavailable ≤ 0 → cbatch = [] ∧ st' = st) ∧
   Z.of_nat (length cbatch) ≤
     Z.min (Z.min cshare cavailable) (Z.of_nat (length pending)) ∧
   (0 < cavailable →
    pending ≡ₚ cbatch ++ default [] (SwarmCoordinator.queue st') ∧
    (NoDup pending →
     NoDup cbatch ∧ ∀ j, j ∈ cbatch → j ∉ default [] (SwarmCoordinator.queue st')))).
Proof.
  intros s sh av batch s' st weights stored pending csh cav cbatch st'. split.
  - intros Hq Hw.
    pose proof (wf_run ops init wf_init) as Hwf. fold s in Hwf.
    pose proof (wf_quotas _ Hwf _ _ Hq) as Hb. simpl in Hb.
    subst batch s'. rewrite getJobBatchForDevice_unfold, Hq.
    destruct (decide (av ≤ 0)) as [Hfull|Hfree].
    + rewrite batchWithQuota_full by done. simpl.
      repeat split; auto; subst sh av; try lia.
      * constructor.
      * intros j Hj. by apply elem_of_nil in Hj.
    + destruct (batchWithQuota_spec s device quota requestedCount)
        as (tk & q' & -> & Hp & Hl); [subst av; lia|].
      simpl. rewrite (share_registered s device w requestedCount Hwf Hw) in Hl.
      fold sh av in Hl. split; [lia|]. split; [lia|]. split; [done|].
      intros Hnd. rewrite Hp in Hnd. apply NoDup_app in Hnd as (? & Hdisj & _).
      split; [done|]. exact Hdisj.
  - intros Hq Hw.
    pose proof (cwf_run evs _ (cwf_init id)) as Hwf. fold st in Hwf.
    pose proof (SwarmCoordinator.wf_quota_bounds _ Hwf _ _ Hq) as Hb. simpl in Hb.
    pose proof (coordinator_share_registered st cdevice cw Hwf Hw) as Hsh.
    fold weights csh in Hsh.
    pose proof (prepared_registered st cdevice rnd cquota Hq) as Hprep.
    fold cav stored in Hprep.
    destruct (getJobBatchForDevice_result st cdevice rnd) as (quota' & Hq' & Hres).
    subst cbatch st'. clearbody st. clear Hwf.
    destruct (decide (cav ≤ 0)) as [Hfull|Hfree].
    + rewrite Hprep, Hq in Hq'. injection Hq' as <-. fold cav in Hres.
      destruct Hres as [(_ & ->) | (Hav & _)]; [|lia].
      rewrite Hprep. simpl. split; [done|]. split; [|lia].
      assert (1 ≤ csh) by (subst csh; lia). lia.
    + assert (Hpq : SwarmCoordinator.quotas (SwarmCoordinator.prepared st cdevice rnd)
                    = SwarmCoordinator.quotas st ∧
                    SwarmCoordinator.share (SwarmCoordinator.prepared st cdevice rnd)
                      cdevice = SwarmCoordinator.share st cdevice ∧
                    default [] (SwarmCoordinator.queue
                                  (SwarmCoordinator.prepared st cdevice rnd)) = pending).
      { rewrite Hprep. subst pending. by destruct (decide (length stored = 0%nat)). }
      destruct Hpq as (Hpquo & Hpsh & Hpqueue).
      rewrite Hpquo, Hq in Hq'. injection Hq' as <-. fold cav in Hres.
      rewrite Hpsh, Hpqueue, Hsh in Hres. clearbody pending.
      destruct Hres as [(Hav & _) | (_ & tk & q' & -> & Hp & Hl)]; [lia|].
      cbn [fst snd]. split; [lia|]. split; [lia|]. intros _.
      change (default [] (SwarmCoordinator.queue (SwarmCoordinator.put_queue q' _)))
        with q'.
      split; [done|].
      intros Hnd. rewrite Hp in Hnd. apply NoDup_app in Hnd as (? & Hdisj & _).
      split; [done|]. exact Hdisj.
Qed.

Lemma requestBatch_bounded_witness :
  let s := run init [Register dev4; Generate sampleDraw] in
  let st := SwarmCoordinator.run (SwarmCoordinator.init "S") (take 2 sampleEvents) in
  (∃ quota w,
     deviceQuotas s !! "D" = Some quota ∧ deviceWeights s !! "D" = Some w ∧
     Z.of_nat (length (fst (getJobBatchForDevice s dev4 10))) ≤
       Z.min (Z.min (Z.max 1 (Qc_floor (w / totalWeight s * Qc_of_Z 10 * Qc_of_Z 3)%Qc))
                    (maxConcurrent quota - activeJobs quota))
             (Z.of_nat (length (jobQueue s)))) ∧
  (∃ cquota cw,
     SwarmCoordinator.quotas st !! "D" = Some cquota ∧
     default ∅ (SwarmCoordinator.weights st) !! "D" = Some cw ∧
     Z.of_nat (length (fst (SwarmCoordinator.getJobBatchForDevice st dev4 sampleDraw))) ≤
       Z.min (Z.min (Z.max 1 (Qc_floor
                                (cw / sumWeights (default ∅ (SwarmCoordinator.weights st))
                                 * Qc_of_Z 30)%Qc))
                    (maxConcurrent cquota - activeJobs cquota))
             100).
Proof.
  intros s st.
  destruct (deviceQuotas s !! "D") as [quota|] eqn:Eq;
    [|exfalso; vm_compute in Eq; discriminate Eq].
  destruct (deviceWeights s !! "D") as [w|] eqn:Ew;
    [|exfalso; vm_compute in Ew; discriminate Ew].
  destruct (SwarmCoordinator.quotas st !! "D") as [cquota|] eqn:Ecq;
    [|exfalso; vm_compute in Ecq; discriminate Ecq].
  destruct (default ∅ (SwarmCoordinator.weights st) !! "D") as [cw|] eqn:Ecw;
    [|exfalso; vm_compute in Ecw; discriminate Ecw].
  pose proof (requestBatch_bounded [Register dev4; Generate sampleDraw] dev4 quota w 10
                "S" (take 2 sampleEvents) dev4 cquota cw sampleDraw) as [Hs Hc].
  split.
  - exists quota, w. split; [reflexivity|]. split; [reflexivity|].
    exact (proj1 (proj2 (Hs Eq Ew))).
  - exists cquota, cw. split; [reflexivity|]. split; [reflexivity|].
    exact (proj1 (proj2 (Hc Ecq Ecw))).
Defined.

(** C10. [releaseJobSlot] writes the latency adjustment to the quota
    record only: after any sequence of completions the weight map and the
    running total are what they were, and so is the share that
    [getJobBatchForDevice] computes, in the scheduler and in the
    coordinator. *)
Theorem release_keeps_share (s : t) (st : SwarmCoordinator.Storage)
    (completions : list (string * option Z)) (device : DeviceInfo) (n : Z) :
  let s' := foldl (λ acc c, releaseJobSlot acc (fst c) (snd c)) s completions in
  let st' := foldl (λ acc c, SwarmCoordinator.releaseJobSlot acc (fst c) (snd c))
                   st completions in
  (deviceWeights s' = deviceWeights s ∧ totalWeight s' = totalWeight s ∧
   share s' device n = share s device n) ∧
  (SwarmCoordinator.weights st' = SwarmCoordinator.weights st ∧
   SwarmCoordinator.share st' device = SwarmCoordinator.share st device).
Proof.
  revert s st. induction completions as [|[id d] cs IH]; intros s st; simpl.
  { done. }
  assert (Hs : deviceWeights (releaseJobSlot s id d) = deviceWeights s ∧
               totalWeight (releaseJobSlot s id d) = totalWeight s).
  { unfold releaseJobSlot. destruct (deviceQuotas s !! id); [|done].
    by case_decide. }
  assert (Hst : SwarmCoordinator.weights (SwarmCoordinator.releaseJobSlot st id d) =
                SwarmCoordinator.weights st).
  { unfold SwarmCoordinator.releaseJobSlot.
    destruct (SwarmCoordinator.quotas st !! id); [|done]. by case_decide. }
  destruct (IH (releaseJobSlot s id d) (SwarmCoordinator.releaseJobSlot st id d))
    as [(Hw & Ht & Hsh) (Hcw & Hcsh)].
  destruct Hs as [Hs1 Hs2]. split.
  - rewrite Hw, Ht, Hsh. repeat split; [done|done|].
    unfold share. by rewrite Hs1, Hs2.
  - rewrite Hcw, Hcsh. split; [done|].
    unfold SwarmCoordinator.share. by rewrite Hst.
Qed.

(** C3 as stated fails: re-registering a device that holds two jobs sets
    its [activeJobs] back to [0]. *)
Lemma reregister_resets_activeJobs :
  activeJobs <$> (deviceQuotas schedBusy !! "D") = Some 2 ∧
  activeJobs <$> (deviceQuotas (registerDevice schedBusy dev4) !! "D") = Some 0 ∧
  activeJobs <$> (deviceQuotas (registerDevice schedBusy dev4) !! "D") ≠
    activeJobs <$> (deviceQuotas schedBusy !! "D").
Proof. vm_compute. repeat split; discriminate. Qed.

(** C3, amended. [registerDevice] and [registerDeviceInScheduler] store a
    fresh quota for the device: weight and [maxConcurrent] are recomputed
    and [activeJobs] is [0], whatever it was; the quotas of the other
    devices are not touched. *)
Theorem register_replaces_quota (s : t) (st : SwarmCoordinator.Storage)
    (device : DeviceInfo) :
  let fresh := mkQuota (dev_id device) (calculateWeight device) 0
                 (Z.max 10 (Z_or (cpuCores (capabilities device)) 4 * 4)) in
  deviceQuotas (registerDevice s device) !! dev_id device = Some fresh ∧
  SwarmCoordinator.quotas (SwarmCoordinator.registerDeviceInScheduler st device)
    !! dev_id device = Some fresh ∧
  (∀ id, id ≠ dev_id device →
     deviceQuotas (registerDevice s device) !! id = deviceQuotas s !! id ∧
     SwarmCoordinator.quotas (SwarmCoordinator.registerDeviceInScheduler st device)
       !! id = SwarmCoordinator.quotas st !! id).
Proof.
  intros fresh. split; [apply registerDevice_quota|].
  split; [apply registerDeviceInScheduler_quota|].
  intros id Hne. simpl. by rewrite !lookup_insert_ne.
Qed.

Lemma register_replaces_quota_witness :
  activeJobs <$> (deviceQuotas (registerDevice schedBusy dev4) !! "D") = Some 0 ∧
  deviceQuotas (registerDevice schedBusy dev4) !! "G" = deviceQuotas schedBusy !! "G".
Proof.
  pose proof (register_replaces_quota schedBusy (SwarmCoordinator.init "S") dev4)
    as (Hfresh & _ & Hother).
  split.
  - change (dev_id dev4) with "D" in Hfresh. rewrite Hfresh. reflexivity.
  - apply (Hother "G"). discriminate.
Defined.

(** C6 as stated fails: four cores, no GPU and a score of [0] weigh 40. *)
Lemma weight_of_dev4_is_not_41 :
  calculateWeight dev4 = Qc_of_Z 40 ∧ calculateWeight dev4 ≠ Qc_of_Z 41.
Proof.
  assert (H : calculateWeight dev4 = Qc_of_Z 40).
  { apply Qc_is_canon. vm_compute. reflexivity. }
  split; [exact H|]. rewrite H. intros Heq.
  apply (f_equal this) in Heq. vm_compute in Heq. discriminate Heq.
Qed.

(** C6, amended. A device with four cores, no GPU and a score of [0]
    weighs 40, in the scheduler and in the coordinator alike; in general
    the weight is [max(1, c*10 + (gpu ? 50 : 0) + min(opsScore/1000, 100))]
    where [c] is [cpuCores], or [4] when [cpuCores] is [0]. *)
Theorem weight_of_four_cores (name : string) (id : string)
    (ty : DeviceType) (st : DeviceConnectionStatus) (mem : Z) (gname : option string)
    (done_ hb : Z) (ui : option Z) (sw : option string) (device : DeviceInfo) :
  let d := mkDevice id name ty st (mkCaps 4 mem false gname) (Q2Qc 0)
                    done_ hb ui sw in
  calculateWeight d = Qc_of_Z 40 ∧
  SwarmCoordinator.calculateWeight d = Qc_of_Z 40 ∧
  calculateWeight device =
    Qc_max (Qc_of_Z 1)
      (Qc_of_Z ((if decide (cpuCores (capabilities device) = 0) then 4
                 else cpuCores (capabilities device)) * 10)%Z +
       Qc_of_Z (if gpuAvailable (capabilities device) then 50 else 0)%Z +
       Qc_min (opsScore device / Qc_of_Z 1000) (Qc_of_Z 100))%Qc.
Proof.
  intros d.
  assert (H : calculateWeight d = Qc_of_Z 40).
  { apply Qc_is_canon. vm_compute. reflexivity. }
  split; [exact H|]. split; [exact H|].
  unfold calculateWeight. by rewrite Qc_or_0.
Qed.

(** C5 as stated fails: a GPU device that is alone in the swarm and asks
    for one job has a share of three and receives both jobs; so does a
    device without GPU. *)
Lemma lone_device_gets_both_jobs :
  fst (getJobBatchForDevice (registerDevice schedAB gpu8) gpu8 1) = [jobB; jobA] ∧
  fst (getJobBatchForDevice (registerDevice schedAB gpu8) gpu8 1) ≠ [jobB] ∧
  fst (getJobBatchForDevice (registerDevice schedAB dev4) dev4 1) = [jobA; jobB] ∧
  fst (getJobBatchForDevice (registerDevice schedAB dev4) dev4 1) ≠ [jobA].
Proof. vm_compute. repeat split; discriminate. Qed.

(** C5, amended. With the queue [[A; B]], [A] a CPU-stress job and [B] a
    matrix-multiply job, a registered device with a free slot that asks
    for one job receives the first [min(share, availableSlots)] jobs of
    [[B; A]] when it has a GPU and of [[A; B]] when it has none: exactly
    [[B]], respectively [[A]], when its share is [1].  Each round takes the
    first queued job of the preferred type and, when there is none, the
    oldest job of the queue. *)
Theorem preferred_kind_selection (s : t) (device : DeviceInfo)
    (quota : DeviceJobQuota) (a b : Job) :
  let availableSlots := maxConcurrent quota - activeJobs quota in
  let batch := fst (getJobBatchForDevice s device 1) in
  deviceQuotas s !! dev_id device = Some quota →
  0 < availableSlots →
  jobQueue s = [a; b] → job_type a = MATH_STRESS → job_type b = MAT_MUL →
  batch = take (Z.to_nat (Z.min (share s device 1) availableSlots))
               (if gpuAvailable (capabilities device) then [b; a] else [a; b]) ∧
  (share s device 1 = 1 →
   batch = [if gpuAvailable (capabilities device) then b else a]) ∧
  (∀ pref l1 j l2,
     Forall (λ x, job_type x ≠ pref) l1 → job_type j = pref →
     takeJob pref (l1 ++ j :: l2) = Some (j, l1 ++ l2)) ∧
  (∀ pref j q,
     Forall (λ x, job_type x ≠ pref) (j :: q) → takeJob pref (j :: q) = Some (j, q)).
Proof.
  intros av batch Hq Hav Hqueue Ha Hb.
  assert (Hbatch :
    batch = take (Z.to_nat (Z.min (share s device 1) av))
                 (if gpuAvailable (capabilities device) then [b; a] else [a; b])).
  { subst batch. rewrite getJobBatchForDevice_unfold, Hq.
    unfold batchWithQuota. fold av. rewrite decide_False by lia.
    rewrite Hqueue. change (Z.of_nat (length [a; b])) with 2.
    assert (Hsh : 1 ≤ share s device 1) by (unfold share; lia).
    set (m := Z.min (share s device 1) av) in *.
    assert (Hm : m = 1 ∨ 2 ≤ m) by lia.
    destruct a as [ida ta ca da], b as [idb tb cb db]. simpl in Ha, Hb. subst ta tb.
    unfold preferredType.
    destruct Hm as [-> | Hm].
    - change (Z.to_nat (Z.min 1 2)) with 1%nat. change (Z.to_nat 1) with 1%nat.
      destruct (gpuAvailable (capabilities device)); reflexivity.
    - rewrite (Z.min_r m 2) by lia. change (Z.to_nat 2) with 2%nat.
      destruct (gpuAvailable (capabilities device));
        (rewrite take_ge by (simpl; lia)); reflexivity. }
  split; [exact Hbatch|]. split.
  - intros H1. rewrite Hbatch, H1, Z.min_l by lia.
    by destruct (gpuAvailable (capabilities device)).
  - split; intros; [by apply takeJob_preferred | by apply takeJob_fallback].
Qed.

Lemma preferred_kind_selection_witness :
  fst (getJobBatchForDevice schedTwo dev4 1) = [jobA].
Proof.
  destruct (deviceQuotas schedTwo !! "D") as [quota|] eqn:Eq;
    [|exfalso; vm_compute in Eq; discriminate Eq].
  assert (Hav : 0 < maxConcurrent quota - activeJobs quota).
  { vm_compute in Eq. injection Eq as <-. reflexivity. }
  refine (proj1 (proj2
    (preferred_kind_selection schedTwo dev4 quota jobA jobB Eq Hav
       eq_refl eq_refl eq_refl)) _).
  vm_compute. reflexivity.
Defined.

End scheduler_claims.

(** ** Claims about the device registry *)

Section registry_claims.
Import DeviceManager.

(** C7. The sweep removes a device whose silence exceeds 300000 ms; else,
    when the silence exceeds 60000 ms and the status is not DISABLED, it
    sets the status to OFFLINE; a device silent for less than 60 seconds
    is left as it is.  The coordinator's [cleanup] is the same sweep over
    the stored [device:] records. *)
Theorem sweep_thresholds (devices : gmap string DeviceInfo)
    (now : Z) (id : string) (d : DeviceInfo) :
  let silence := now - lastHeartbeat d in
  devices !! id = Some d →
  (300000 < silence → cleanup devices now !! id = None) ∧
  (silence ≤ 300000 → 60000 < silence → status d ≠ DISABLED →
   cleanup devices now !! id = Some (set_status OFFLINE d)) ∧
  (silence < 60000 → cleanup devices now !! id = Some d) ∧
  (∀ st, SwarmCoordinator.devices st = devices →
         SwarmCoordinator.devices (SwarmCoordinator.cleanup st now) =
           cleanup devices now).
Proof.
  intros silence Hd. rewrite cleanup_lookup, Hd. fold silence.
  unfold DELETE_THRESHOLD, OFFLINE_THRESHOLD. repeat split.
  - intros H. by rewrite decide_True.
  - intros H1 H2 H3. rewrite decide_False by lia. by rewrite decide_True.
  - intros H. rewrite decide_False by lia. rewrite decide_False by lia. done.
  - intros st <-. apply coordinator_cleanup_same.
Qed.

Lemma sweep_thresholds_witness :
  let devices := register ∅ "D" "laptop" (mkCaps 4 8 false None) "S" 0 in
  cleanup devices 400000 !! "D" = None ∧
  status <$> (cleanup devices 90000 !! "D") = Some OFFLINE ∧
  status <$> (cleanup devices 30000 !! "D") = Some ONLINE.
Proof.
  intros devices.
  destruct (devices !! "D") as [d|] eqn:E;
    [|exfalso; vm_compute in E; discriminate E].
  assert (Hhb : lastHeartbeat d = 0 ∧ status d = ONLINE).
  { vm_compute in E. injection E as <-. split; reflexivity. }
  destruct Hhb as [Hhb Hst].
  split; [|split].
  - refine (proj1 (sweep_thresholds devices 400000 "D" d E) _). rewrite Hhb. lia.
  - rewrite (proj1 (proj2 (sweep_thresholds devices 90000 "D" d E)));
      [reflexivity | rewrite Hhb; lia | rewrite Hhb; lia | rewrite Hst; discriminate].
  - rewrite (proj1 (proj2 (proj2 (sweep_thresholds devices 30000 "D" d E))));
      [simpl; by rewrite Hst | rewrite Hhb; lia].
Defined.

(** C8 as stated fails: a re-registration also takes a DISABLED device
    back to ONLINE. *)
Lemma register_clears_disabled :
  status <$> (registryDisabled !! "D") = Some DISABLED ∧
  status <$> (register registryDisabled "D" "laptop" (mkCaps 4 8 false None) "S" 1000
                !! "D") = Some ONLINE.
Proof. vm_compute. split; reflexivity. Qed.

(** C8, amended. The status of a DISABLED device is not changed by any
    sequence of calls other than [toggleDevice(id, true)] and
    [register(id, ...)], in particular not by heartbeats and sweeps (a
    sweep can still delete the record); [toggleDevice(id, true)] and
    [register(id, ...)] both set it to ONLINE. *)
Theorem disabled_is_sticky (devices : gmap string DeviceInfo) (ops : list Op)
    (id : string) (d : DeviceInfo) :
  devices !! id = Some d → status d = DISABLED →
  Forall (λ op, ¬ reenables id op) ops →
  (∀ d', run devices ops !! id = Some d' → status d' = DISABLED) ∧
  (∀ beats, Forall (λ op, ∃ i data now, op = Heartbeat i data now ∨ op = Cleanup now)
                   beats →
     ∀ d', run devices beats !! id = Some d' → status d' = DISABLED) ∧
  status <$> (toggleDevice devices id true !! id) = Some ONLINE ∧
  (∀ name caps swarm now,
     status <$> (register devices id name caps swarm now !! id) = Some ONLINE).
Proof.
  intros Hd Hs Hops.
  assert (Hdis : ∀ d0, devices !! id = Some d0 → status d0 = DISABLED).
  { intros d0 Hd0. congruence. }
  split; [by apply disabled_run|]. split.
  - intros beats Hb. apply disabled_run; [done|].
    eapply Forall_impl; [exact Hb|].
    intros op (i & data & now & [-> | ->]); simpl; auto.
  - split.
    + unfold toggleDevice. rewrite Hd, lookup_insert_eq. done.
    + intros name caps swarm now. unfold register. by rewrite lookup_insert_eq.
Qed.

Lemma disabled_is_sticky_witness :
  status <$> (run registryDisabled
                [Heartbeat "D" None 1000; Cleanup 90000; Toggle "D" false;
                 UpdateScore "D" (Qc_of_Z 5000); Heartbeat "D" (Some 95000) 95000]
                !! "D") = Some DISABLED.
Proof.
  destruct (registryDisabled !! "D") as [d|] eqn:E;
    [|exfalso; vm_compute in E; discriminate E].
  assert (Hs : status d = DISABLED).
  { vm_compute in E. injection E as <-. reflexivity. }
  destruct (run registryDisabled _ !! "D") as [d'|] eqn:E';
    [|exfalso; vm_compute in E'; discriminate E'].
  simpl. f_equal.
  refine (proj1 (disabled_is_sticky registryDisabled _ "D" d E Hs _) d' E').
  repeat constructor; simpl; auto; discriminate.
Defined.

End registry_claims.

(** ** Claims about invite tokens *)

Section token_claims.
Import AuthManager.

(** C9. Both implementations, [AuthManager.generateToken] and the
    coordinator's [handleGenerateToken], issue a token, and record the
    time, exactly when fewer than five issuances of the swarm lie in the
    trailing 60 seconds.  Six calls within one window: the first five
    succeed and the sixth returns no token ([null] from [generateToken], an
    [auth:token] reply with the empty string from the coordinator); a later
    call, made once the window has moved past the first issuance, succeeds
    again.  A refused request leaves the coordinator's storage as it was.
    The history of another swarm is neither read nor written. *)
Theorem token_rate_limit (s : t) (swarm other : string)
    (t1 t2 t3 t4 t5 t6 t7 e1 e2 e3 e4 e5 e6 e7 : Z)
    (r1 r2 r3 r4 r5 r6 r7 : string) :
  recentGenerations s swarm t1 = [] →
  t1 ≤ t2 ≤ t3 → t3 ≤ t4 ≤ t5 → t5 ≤ t6 < t1 + 60000 →
  t6 ≤ t7 → t1 + 60000 ≤ t7 →
  other ≠ swarm →
  (* [AuthManager.generateToken] *)
  fst (generateTokens s swarm
         [(t1, e1, r1); (t2, e2, r2); (t3, e3, r3); (t4, e4, r4); (t5, e5, r5);
          (t6, e6, r6); (t7, e7, r7)]) =
    [Some r1; Some r2; Some r3; Some r4; Some r5; None; Some r7] ∧
  (∀ s0 now now2 rnd,
     fst (generateToken s0 swarm now now2 rnd) =
       if decide (length (recentGenerations s0 swarm now) < 5)%nat
       then Some rnd else None) ∧
  (∀ s0 now now2 rnd,
     (length (recentGenerations s0 swarm now) < 5)%nat →
     tokenGenerationLog (snd (generateToken s0 swarm now now2 rnd)) !! swarm =
       Some (recentGenerations s0 swarm now ++ [now])) ∧
  (∀ s0 now now2 rnd now',
     recentGenerations (snd (generateToken s0 other now now2 rnd)) swarm now' =
       recentGenerations s0 swarm now') ∧
  (* [SwarmCoordinator.handleGenerateToken] *)
  (∀ st : SwarmCoordinator.Storage,
     SwarmCoordinator.recentGenerations st t1 = [] →
     fst (SwarmCoordinator.handleGenerateTokens st
            [(t1, r1); (t2, r2); (t3, r3); (t4, r4); (t5, r5); (t6, r6); (t7, r7)]) =
       [r1; r2; r3; r4; r5; EmptyString; r7]) ∧
  (∀ (st : SwarmCoordinator.Storage) persistentId env,
     SwarmCoordinator.handleMessage st persistentId SwarmCoordinator.GenerateToken env =
       (SwarmCoordinator.AuthTokenReply
          (if decide (length (SwarmCoordinator.recentGenerations st
                                (SwarmCoordinator.env_now env)) < 5)%nat
           then SwarmCoordinator.env_token env else EmptyString),
        snd (SwarmCoordinator.handleGenerateToken st
               (SwarmCoordinator.env_now env) (SwarmCoordinator.env_token env)))) ∧
  (∀ (st : SwarmCoordinator.Storage) now rnd,
     (length (SwarmCoordinator.recentGenerations st now) < 5)%nat →
     SwarmCoordinator.ratelimit (snd (SwarmCoordinator.handleGenerateToken st now rnd))
       !! SwarmCoordinator.self_id st =
       Some (SwarmCoordinator.recentGenerations st now ++ [now])) ∧
  (∀ (st : SwarmCoordinator.Storage) now rnd,
     (5 ≤ length (SwarmCoordinator.recentGenerations st now))%nat →
     snd (SwarmCoordinator.handleGenerateToken st now rnd) = st) ∧
  (∀ (st : SwarmCoordinator.Storage) now rnd key,
     key ≠ SwarmCoordinator.self_id st →
     SwarmCoordinator.ratelimit (snd (SwarmCoordinator.handleGenerateToken st now rnd))
       !! key = SwarmCoordinator.ratelimit st !! key).
Proof.
  intros H0 H12 H34 H56 H7 Hslid Hne. repeat split.
  - by apply generateTokens_window.
  - intros s0 now now2 rnd. unfold generateToken.
    destruct (decide (5 ≤ length (recentGenerations s0 swarm now))%nat).
    + by rewrite decide_False by lia.
    + by rewrite decide_True by lia.
  - intros s0 now now2 rnd Hlt. by apply generateToken_ok.
  - intros s0 now now2 rnd now'. unfold recentGenerations.
    by rewrite generateToken_other by done.
  - intros st Hst.
    rewrite (handleGenerateTokens_refines _ st (mk ∅ (SwarmCoordinator.ratelimit st)))
      by done.
    cbn [fmap list_fmap fst snd].
    by rewrite generateTokens_window.
  - intros st persistentId env. unfold SwarmCoordinator.handleMessage.
    unfold SwarmCoordinator.handleGenerateToken.
    destruct (decide (5 ≤ length (SwarmCoordinator.recentGenerations st
                                    (SwarmCoordinator.env_now env)))%nat).
    + by rewrite decide_False by lia.
    + by rewrite decide_True by lia.
  - intros st now rnd Hlt. unfold SwarmCoordinator.handleGenerateToken.
    rewrite decide_False by lia. simpl. by rewrite lookup_insert_eq.
  - intros st now rnd Hge. unfold SwarmCoordinator.handleGenerateToken.
    by rewrite decide_True.
  - intros st now rnd key Hkey. unfold SwarmCoordinator.handleGenerateToken.
    case_decide; [done|]. simpl. by rewrite lookup_insert_ne.
Qed.

Lemma token_rate_limit_witness :
  fst (generateTokens init "S"
         [(0, 1, "AAAAAA"); (10000, 10001, "BBBBBB"); (20000, 20001, "CCCCCC");
          (30000, 30001, "DDDDDD"); (40000, 40001, "EEEEEE");
          (50000, 50001, "FFFFFF"); (60000, 60001, "GGGGGG")]) =
    [Some "AAAAAA"; Some "BBBBBB"; Some "CCCCCC"; Some "DDDDDD"; Some "EEEEEE";
     None; Some "GGGGGG"] ∧
  fst (SwarmCoordinator.handleGenerateTokens (SwarmCoordinator.init "S")
         [(0, "AAAAAA"); (10000, "BBBBBB"); (20000, "CCCCCC"); (30000, "DDDDDD");
          (40000, "EEEEEE"); (50000, "FFFFFF"); (60000, "GGGGGG")]) =
    ["AAAAAA"; "BBBBBB"; "CCCCCC"; "DDDDDD"; "EEEEEE"; ""; "GGGGGG"].
Proof.
  assert (Hw := token_rate_limit init "S" "T" 0 10000 20000 30000 40000 50000 60000
                  1 10001 20001 30001 40001 50001 60001
                  "AAAAAA" "BBBBBB" "CCCCCC" "DDDDDD" "EEEEEE" "FFFFFF" "GGGGGG"
                  eq_refl ltac:(lia) ltac:(lia) ltac:(lia) ltac:(lia) ltac:(lia)
                  ltac:(discriminate)).
  split.
  - exact (proj1 Hw).
  - exact (proj1 (proj2 (proj2 (proj2 (proj2 Hw)))) (SwarmCoordinator.init "S") eq_refl).
Defined.

End token_claims.

(** * Further properties of the code *)

(** ** The batch loop as a stable partition *)

Section batch_order.

Lemma filter_split_first {A} (P : A → Prop) `{∀ x, Decision (P x)}
    (q r : list A) (x : A) :
  filter P q = x :: r →
  ∃ l1 l2, q = l1 ++ x :: l2 ∧ Forall (λ y, ¬ P y) l1 ∧ P x ∧ filter P l2 = r.
Proof.
  induction q as [|y q IH]; [done|].
  rewrite filter_cons. destruct (decide (P y)) as [Hy|Hy].
  - intros [= -> <-]. by exists [], q.
  - intros Hf. destruct (IH Hf) as (l1 & l2 & -> & Hl1 & Hx & Hr).
    exists (y :: l1), l2. repeat split; auto.
Qed.

Lemma filter_Forall_not {A} (P : A → Prop) `{∀ x, Decision (P x)} (l : list A) :
  Forall (λ y, ¬ P y) l → filter P l = [].
Proof.
  induction 1 as [|y l Hy _ IH]; [done|]. by rewrite filter_cons_False.
Qed.

Lemma filter_nil_Forall_not {A} (P : A → Prop) `{∀ x, Decision (P x)} (l : list A) :
  filter P l = [] → Forall (λ y, ¬ P y) l.
Proof.
  induction l as [|y l IH]; [constructor|].
  rewrite filter_cons. destruct (decide (P y)); [done|].
  intros Hf. constructor; auto.
Qed.

(** The jobs in the order in which the loop takes them: those of the
    preferred type first, then the others, each group in queue order. *)
Local Abbreviation dispatchOrder preferred queue :=
  (filter (λ j, job_type j = preferred) queue ++
   filter (λ j, job_type j ≠ preferred) queue).

Lemma takeJob_dispatchOrder pref (q : list Job) (x : Job) (r : list Job) :
  dispatchOrder pref q = x :: r →
  ∃ q', takeJob pref q = Some (x, q') ∧ dispatchOrder pref q' = r.
Proof.
  destruct (filter (λ j, job_type j = pref) q) as [|y p] eqn:Hp; simpl.
  - intros Hn. apply filter_nil_Forall_not in Hp.
    assert (Hq : filter (λ j, job_type j ≠ pref) q = q).
    { apply filter_Forall_id. exact Hp. }
    rewrite Hq in Hn. subst q. exists r. split; [by apply takeJob_fallback|].
    apply Forall_cons in Hp as [Hx Hr].
    rewrite (filter_Forall_not _ r) by done. simpl. by apply filter_Forall_id.
  - intros [= -> <-].
    destruct (filter_split_first _ _ _ _ Hp) as (l1 & l2 & -> & Hl1 & Hx & Hl2).
    exists (l1 ++ l2). split; [by apply takeJob_preferred|].
    rewrite !filter_app, (filter_Forall_not _ l1) by done.
    rewrite (filter_cons_False (λ j, job_type j ≠ pref)) by (intros Hne; by apply Hne).
    simpl. by rewrite Hl2.
Qed.

Lemma dispatchOrder_nil pref (q : list Job) : dispatchOrder pref q = [] → q = [].
Proof.
  intros H. apply (f_equal length) in H.
  rewrite length_app in H. simpl in H.
  pose proof (filter_app_complement (λ j, job_type j = pref) q) as Hp.
  apply Permutation_length in Hp. rewrite length_app in Hp.
  apply nil_length_inv. lia.
Qed.

Lemma batchLoop_dispatchOrder n pref (q b : list Job) (a : Z) :
  (batchLoop n pref q b a).1.2 = b ++ take n (dispatchOrder pref q).
Proof.
  revert q b a. induction n as [|n IH]; intros q b a; simpl.
  { by rewrite take_0, app_nil_r. }
  destruct (dispatchOrder pref q) as [|x r] eqn:Hd.
  - apply dispatchOrder_nil in Hd as ->. rewrite takeJob_nil, IH.
    cbn [filter list_filter app]. by rewrite take_nil.
  - destruct (takeJob_dispatchOrder pref q x r Hd) as (q' & -> & Hr).
    rewrite IH, Hr, <-app_assoc. done.
Qed.

End batch_order.

(** ** Further properties of the scheduler *)

Section scheduler_extras.
Import JobScheduler.

(** X1. The batch of a registered device with a free slot is a prefix of
    the queue's jobs of the preferred type followed by the other jobs, each
    group in queue order; while the queue holds enough jobs of the
    preferred type the batch contains no other job. *)
Theorem batch_in_dispatch_order (s : t) (device : DeviceInfo)
    (quota : DeviceJobQuota) (requestedCount : Z) :
  let availableSlots := maxConcurrent quota - activeJobs quota in
  let batchSize :=
    Z.min (Z.min (share s device requestedCount) availableSlots)
          (Z.of_nat (length (jobQueue s))) in
  let preferred := filter (λ j, job_type j = preferredType device) (jobQueue s) in
  let others := filter (λ j, job_type j ≠ preferredType device) (jobQueue s) in
  let batch := fst (getJobBatchForDevice s device requestedCount) in
  deviceQuotas s !! dev_id device = Some quota →
  0 < availableSlots →
  batch = take (Z.to_nat batchSize) (preferred ++ others) ∧
  (batchSize ≤ Z.of_nat (length preferred) →
   batch = take (Z.to_nat batchSize) preferred ∧
   Forall (λ j, job_type j = preferredType device) batch).
Proof.
  intros av bs pf ot batch Hq Hav.
  assert (Hb : batch = take (Z.to_nat bs) (pf ++ ot)).
  { subst batch. rewrite getJobBatchForDevice_unfold, Hq.
    unfold batchWithQuota. fold av. rewrite decide_False by lia. fold bs.
    pose proof (batchLoop_dispatchOrder (Z.to_nat bs) (preferredType device)
                  (jobQueue s) [] (activeJobs quota)) as Hd.
    destruct (batchLoop _ _ _ _ _) as [[q' b] a']. cbn [fst snd app] in *. exact Hd. }
  split; [exact Hb|]. intros Hle.
  assert (Hb' : batch = take (Z.to_nat bs) pf).
  { rewrite Hb. apply take_app_le. lia. }
  split; [exact Hb'|]. rewrite Hb'. apply Forall_take.
  subst pf. apply Forall_forall. intros j Hj.
  by apply list_elem_of_filter in Hj as [Hj _].
Qed.

Lemma batch_in_dispatch_order_witness :
  fst (getJobBatchForDevice schedTwo gpu8 1) = [jobB; jobA].
Proof.
  destruct (deviceQuotas schedTwo !! "G") as [quota|] eqn:Eq;
    [|exfalso; vm_compute in Eq; discriminate Eq].
  assert (Hav : 0 < maxConcurrent quota - activeJobs quota).
  { vm_compute in Eq. injection Eq as <-. reflexivity. }
  rewrite (proj1 (batch_in_dispatch_order schedTwo gpu8 quota 1 Eq Hav)).
  vm_compute in Eq. injection Eq as <-. vm_compute. reflexivity.
Defined.

(** The queue only ever loses the jobs of the batch. *)
Lemma getJobBatchForDevice_queue (s : t) (device : DeviceInfo) (n : Z) :
  jobQueue s ≡ₚ
    fst (getJobBatchForDevice s device n) ++
    jobQueue (snd (getJobBatchForDevice s device n)).
Proof.
  rewrite getJobBatchForDevice_unfold.
  assert (Hcore : ∀ s0 quota,
    jobQueue s0 ≡ₚ fst (batchWithQuota s0 device quota n) ++
                   jobQueue (snd (batchWithQuota s0 device quota n))).
  { intros s0 quota.
    destruct (decide (maxConcurrent quota - activeJobs quota ≤ 0)) as [Hfull|Hfree].
    - by rewrite batchWithQuota_full.
    - destruct (batchWithQuota_spec s0 device quota n) as (tk & q' & -> & Hp & _);
        [lia|done]. }
  destruct (deviceQuotas s !! dev_id device) as [quota|]; [apply Hcore|].
  apply (Hcore (registerDevice s device)).
Qed.

(** X2. The pending queue of the scheduler never holds more than 5100
    jobs: [generateJobs] adds its hundred only to a queue of at most 5000,
    and nothing else adds jobs. *)
Theorem queue_is_bounded (ops : list Op) :
  Z.of_nat (length (jobQueue (run init ops))) ≤ 5100.
Proof.
  assert (Hstep : ∀ s op, Z.of_nat (length (jobQueue s)) ≤ 5100 →
                          Z.of_nat (length (jobQueue (step s op))) ≤ 5100).
  { intros s [d|d n|id dur|rnd] Hs; simpl.
    - done.
    - pose proof (getJobBatchForDevice_queue s d n) as Hp.
      apply Permutation_length in Hp. rewrite length_app in Hp. lia.
    - unfold releaseJobSlot. destruct (deviceQuotas s !! id); [|done].
      by case_decide.
    - unfold generateJobs, MAX_QUEUE_SIZE. case_decide; [done|].
      cbn [jobQueue]. rewrite length_app, length_map, length_seq. lia. }
  assert (Hrun : ∀ s, Z.of_nat (length (jobQueue s)) ≤ 5100 →
                      Z.of_nat (length (jobQueue (run s ops))) ≤ 5100).
  { induction ops as [|op ops IH]; intros s Hs; [done|].
    simpl. apply IH. by apply Hstep. }
  apply Hrun. simpl. lia.
Qed.

Lemma sumActive_insert (m : gmap string DeviceJobQuota) (i : string)
    (q : DeviceJobQuota) :
  map_fold (λ _ q sum, sum + activeJobs q) 0 (<[i := q]> m) =
    map_fold (λ _ q sum, sum + activeJobs q) 0 m
    + activeJobs q - from_option activeJobs 0 (m !! i).
Proof.
  assert (Hfresh : ∀ (m0 : gmap string DeviceJobQuota) q0, m0 !! i = None →
    map_fold (λ _ q sum, sum + activeJobs q) 0 (<[i := q0]> m0) =
      map_fold (λ _ q sum, sum + activeJobs q) 0 m0 + activeJobs q0).
  { intros m0 q0 H0. rewrite map_fold_insert_L; [done| |done]. intros. lia. }
  destruct (m !! i) as [old|] eqn:Hi; simpl.
  - rewrite <-insert_delete_eq, Hfresh by apply lookup_delete_eq.
    rewrite <-(insert_delete_id m i old) at 2 by done.
    rewrite Hfresh by apply lookup_delete_eq. lia.
  - rewrite Hfresh by done. lia.
Qed.

(** X3. Handing out a batch moves jobs from pending to active and loses
    none: the pending count of [getQueueStats] falls by the length of the
    batch and the active count rises by it. *)
Theorem batch_is_accounted (s : t) (device : DeviceInfo) (requestedCount : Z) :
  let batch := fst (getJobBatchForDevice s device requestedCount) in
  let s' := snd (getJobBatchForDevice s device requestedCount) in
  fst (getQueueStats s') = fst (getQueueStats s) - Z.of_nat (length batch) ∧
  snd (getQueueStats s') = snd (getQueueStats s) + Z.of_nat (length batch).
Proof.
  intros batch s'. subst batch s'. rewrite getJobBatchForDevice_unfold.
  assert (Hcore : ∀ s0 quota,
    deviceQuotas s0 !! dev_id device = Some quota →
    fst (getQueueStats (snd (batchWithQuota s0 device quota requestedCount))) =
      fst (getQueueStats s0)
      - Z.of_nat (length (fst (batchWithQuota s0 device quota requestedCount))) ∧
    snd (getQueueStats (snd (batchWithQuota s0 device quota requestedCount))) =
      snd (getQueueStats s0)
      + Z.of_nat (length (fst (batchWithQuota s0 device quota requestedCount)))).
  { intros s0 quota Hq.
    destruct (decide (maxConcurrent quota - activeJobs quota ≤ 0)) as [Hfull|Hfree].
    - rewrite batchWithQuota_full by done. simpl. lia.
    - destruct (batchWithQuota_spec s0 device quota requestedCount)
        as (tk & q' & -> & Hp & _); [lia|].
      apply Permutation_length in Hp. rewrite length_app in Hp.
      unfold getQueueStats. simpl. rewrite sumActive_insert, Hq. simpl. lia. }
  destruct (deviceQuotas s !! dev_id device) as [quota|] eqn:Hq; [by apply Hcore|].
  destruct (Hcore (registerDevice s device) _ (registerDevice_quota s device))
    as [H1 H2].
  rewrite H1, H2. unfold getQueueStats at 2 4. simpl.
  rewrite sumActive_insert, Hq. simpl. lia.
Qed.

(** X4. [releaseJobSlot] counts down and stops at zero: after any list of
    completions of one device its [activeJobs] is [max(0, a - k)] for [k]
    completions, its ceiling is unchanged, and the queue, the weight map,
    the total and the other quotas are untouched. *)
Theorem release_floors_at_zero (durations : list (option Z)) (s : t) (id : string)
    (quota : DeviceJobQuota) :
  let s' := foldl (λ acc d, releaseJobSlot acc id d) s durations in
  deviceQuotas s !! id = Some quota → 0 ≤ activeJobs quota →
  (∃ quota', deviceQuotas s' !! id = Some quota' ∧
     activeJobs quota' = Z.max 0 (activeJobs quota - Z.of_nat (length durations)) ∧
     maxConcurrent quota' = maxConcurrent quota) ∧
  jobQueue s' = jobQueue s ∧ deviceWeights s' = deviceWeights s ∧
  totalWeight s' = totalWeight s ∧
  (∀ other, other ≠ id → deviceQuotas s' !! other = deviceQuotas s !! other).
Proof.
  revert s quota. induction durations as [|d ds IH]; intros s quota; simpl.
  { intros Hq Ha. split; [|done]. exists quota. split; [done|]. split; [lia|done]. }
  intros Hq Ha.
  destruct (decide (0 < activeJobs quota)) as [Hpos|Hzero].
  - assert (Hrel : ∃ q2,
      releaseJobSlot s id d =
        mk (jobQueue s) (<[id := q2]> (deviceQuotas s))
           (deviceWeights s) (totalWeight s) ∧
      activeJobs q2 = activeJobs quota - 1 ∧
      maxConcurrent q2 = maxConcurrent quota).
    { unfold releaseJobSlot. rewrite Hq, decide_True by done.
      eexists. split; [reflexivity|].
      destruct d as [d0|]; [case_decide|]; done. }
    destruct Hrel as (q2 & -> & Ha2 & Hm2).
    edestruct (IH (mk (jobQueue s) (<[id := q2]> (deviceQuotas s))
                      (deviceWeights s) (totalWeight s)) q2)
      as ((q' & Hq' & Ha' & Hm') & Hj & Hw & Ht & Ho).
    { simpl. apply lookup_insert_eq. }
    { lia. }
    split; [exists q'; split; [exact Hq'|split; lia]|].
    split; [exact Hj|]. split; [exact Hw|]. split; [exact Ht|].
    intros other Hne. rewrite Ho by done. simpl. by rewrite lookup_insert_ne.
  - assert (Hrel : releaseJobSlot s id d = s).
    { unfold releaseJobSlot. by rewrite Hq, decide_False. }
    rewrite Hrel.
    destruct (IH s quota Hq Ha) as ((q' & Hq' & Ha' & Hm') & Hrest).
    split; [|exact Hrest]. exists q'. split; [exact Hq'|]. split; [lia|done].
Qed.

Lemma release_floors_at_zero_witness :
  activeJobs <$>
    (deviceQuotas (foldl (λ acc d, releaseJobSlot acc "D" d) schedBusy
                         [Some 100; None; Some 3000]) !! "D") = Some 0.
Proof.
  destruct (deviceQuotas schedBusy !! "D") as [quota|] eqn:Eq;
    [|exfalso; vm_compute in Eq; discriminate Eq].
  assert (Ha : activeJobs quota = 2).
  { vm_compute in Eq. injection Eq as <-. reflexivity. }
  destruct (proj1 (release_floors_at_zero [Some 100; None; Some 3000]
                     schedBusy "D" quota Eq ltac:(lia)))
    as (q' & -> & Hq' & _).
  simpl. rewrite Hq', Ha. reflexivity.
Defined.

Lemma Qc_min_le_r (x y : Qc) : (Qc_min x y ≤ y)%Qc.
Proof.
  unfold Qc_min. destruct (decide (x ≤ y)%Qc); [done | apply Qcle_refl].
Qed.

Lemma Qc_max_lub (x y z : Qc) : (x ≤ z)%Qc → (y ≤ z)%Qc → (Qc_max x y ≤ z)%Qc.
Proof. intros Hx Hy. unfold Qc_max. by destruct (decide (x ≤ y)%Qc). Qed.

Lemma Qc_max_le_r (x y : Qc) : (y ≤ Qc_max x y)%Qc.
Proof.
  unfold Qc_max. destruct (decide (x ≤ y)%Qc) as [|Hn]; [apply Qcle_refl|].
  apply Qclt_le_weak. by apply Qcnot_le_lt.
Qed.

(** X5. A weight lies between 1 and [max(1, 10*c + 150)], [c] being the
    core count ([4] when the device reports [0]): the GPU adds at most 50
    and the score at most 100, however large the score is.  The ceiling
    stored at registration is at least 10. *)
Theorem weight_is_capped (s : t) (device : DeviceInfo) :
  let c := Z_or (cpuCores (capabilities device)) 4 in
  (Qc_of_Z 1 ≤ calculateWeight device)%Qc ∧
  (calculateWeight device ≤ Qc_max (Qc_of_Z 1) (Qc_of_Z (c * 10 + 150)))%Qc ∧
  (∀ quota, deviceQuotas (registerDevice s device) !! dev_id device = Some quota →
     10 ≤ maxConcurrent quota ∧ c * 4 ≤ maxConcurrent quota ∧
     weight quota = calculateWeight device).
Proof.
  intros c. split; [apply calculateWeight_ge_1|]. split.
  - unfold calculateWeight. fold c. apply Qc_max_lub; [apply Qc_max_le_l|].
    eapply Qcle_trans; [|apply Qc_max_le_r].
    replace (c * 10 + 150) with (c * 10 + 50 + 100) by lia.
    rewrite !Z2Qc_inj_add.
    apply Qcplus_le_compat; [|apply Qc_min_le_r].
    apply Qcplus_le_compat; [apply Qcle_refl|].
    apply (proj1 (Z2Qc_inj_le _ _)).
    destruct (gpuAvailable (capabilities device)); lia.
  - intros quota. rewrite registerDevice_quota. intros [= <-]. simpl. fold c.
    repeat split; lia.
Qed.

Lemma Qc_div_le_1 (w total : Qc) :
  (0 < total)%Qc → (w ≤ total)%Qc → (w / total ≤ Qc_of_Z 1)%Qc.
Proof.
  intros Hpos Hle. apply (Qcmult_lt_0_le_reg_r _ _ total); [done|].
  rewrite Z2Qc_inj_1, Qcmult_1_l, Qcmult_comm.
  rewrite Qcmult_div_r; [done|]. apply not_eq_sym. by apply Qclt_not_eq.
Qed.

Lemma Qc_floor_of_Z (z : Z) : Qc_floor (Qc_of_Z z) = z.
Proof. apply Qfloor_Z. Qed.

Lemma Qc_floor_mono (x y : Qc) : (x ≤ y)%Qc → Qc_floor x ≤ Qc_floor y.
Proof. intros H. by apply Qfloor_resp_le. Qed.

(** A ratio of at most 1 scaled by [n] and 3 has a floor of at most
    [3 * n]. *)
Lemma scaled_ratio_floor (r : Qc) (n : Z) :
  (r ≤ Qc_of_Z 1)%Qc → 0 ≤ n →
  Qc_floor (r * Qc_of_Z n * Qc_of_Z 3)%Qc ≤ 3 * n.
Proof.
  intros Hr Hn. rewrite <-(Qc_floor_of_Z (3 * n)). apply Qc_floor_mono.
  replace (3 * n) with (1 * n * 3) by lia. rewrite !Z2Qc_inj_mul.
  apply Qcmult_le_compat_r; [|by apply (proj1 (Z2Qc_inj_le 0 3))].
  apply Qcmult_le_compat_r; [done|].
  rewrite <-Z2Qc_inj_0. by apply (proj1 (Z2Qc_inj_le _ _)).
Qed.

(** X6. In every state the scheduler can reach, a request for [n ≥ 0] jobs
    is answered with at most [max(1, 3 * n)] jobs, whoever asks. *)
Theorem batch_at_most_thrice_requested (ops : list Op) (device : DeviceInfo)
    (requestedCount : Z) :
  0 ≤ requestedCount →
  Z.of_nat (length (fst (getJobBatchForDevice (run init ops) device requestedCount)))
    ≤ Z.max 1 (3 * requestedCount).
Proof.
  intros Hn. pose proof (wf_run ops init wf_init) as Hwf.
  set (s := run init ops) in *.
  assert (Hcore : ∀ s0 quota, wf s0 →
    is_Some (deviceWeights s0 !! dev_id device) →
    Z.of_nat (length (fst (batchWithQuota s0 device quota requestedCount)))
      ≤ Z.max 1 (3 * requestedCount)).
  { intros s0 quota Hwf0 [w Hw].
    destruct (decide (maxConcurrent quota - activeJobs quota ≤ 0)) as [Hfull|Hfree].
    { rewrite batchWithQuota_full by done. simpl. lia. }
    destruct (batchWithQuota_spec s0 device quota requestedCount)
      as (tk & q' & -> & _ & Hl); [lia|].
    simpl. rewrite Hl, (share_registered s0 device w requestedCount Hwf0 Hw).
    destruct (wf_total_ge s0 _ w Hwf0 Hw) as [H1 Hle].
    assert (Hfl : Qc_floor (w / totalWeight s0 * Qc_of_Z requestedCount * Qc_of_Z 3)%Qc
                  ≤ 3 * requestedCount).
    { apply scaled_ratio_floor; [|done]. apply Qc_div_le_1; [|done].
      eapply Qclt_le_trans; [apply Qc_one_pos|]. by eapply Qcle_trans. }
    lia. }
  rewrite getJobBatchForDevice_unfold.
  destruct (deviceQuotas s !! dev_id device) as [quota|] eqn:Hq.
  - apply Hcore; [done|]. apply (wf_dom _ Hwf). by rewrite Hq.
  - apply Hcore; [by apply wf_registerDevice|]. simpl. rewrite lookup_insert_eq. eauto.
Qed.

Lemma batch_at_most_thrice_requested_witness :
  Z.of_nat (length (fst (getJobBatchForDevice
                           (run init [Register dev4; Generate sampleDraw]) dev4 2)))
    ≤ 6.
Proof.
  apply (batch_at_most_thrice_requested [Register dev4; Generate sampleDraw] dev4 2).
  lia.
Defined.

End scheduler_extras.

(** ** Further properties of the token manager *)

Section token_extras.
Import AuthManager.

(** A loop over the entries of a map that, at each entry, only rewrites or
    removes that entry, acts on every key independently. *)
Lemma map_fold_entrywise {A} (f : string → A → gmap string A → gmap string A)
    (r : string → A → option A) (m m0 : gmap string A) (id : string) :
  (∀ k a acc, acc !! k = Some a → f k a acc !! k = r k a) →
  (∀ k a acc k', k ≠ k' → f k a acc !! k' = acc !! k') →
  (∀ k a, m !! k = Some a → m0 !! k = Some a) →
  map_fold f m0 m !! id =
    match m !! id with Some a => r id a | None => m0 !! id end.
Proof.
  intros Hsame Hother.
  induction m as [|i x m Hi Hfirst IH] using map_first_key_ind; intros Hagree.
  { by rewrite map_fold_empty, lookup_empty. }
  rewrite map_fold_insert_first_key by done.
  assert (Hagree' : ∀ k a, m !! k = Some a → m0 !! k = Some a).
  { intros k a Hk. apply Hagree. rewrite lookup_insert_ne; [done|].
    intros ->. congruence. }
  specialize (IH Hagree').
  destruct (decide (i = id)) as [->|Hne].
  - rewrite lookup_insert_eq. apply Hsame.
    rewrite Hi in IH. rewrite IH. apply Hagree, lookup_insert_eq.
  - rewrite lookup_insert_ne, Hother by done. exact IH.
Qed.

Lemma auth_cleanup_lookup (s : t) (now : Z) (token : string) :
  activeTokens (cleanup s now) !! token =
    match activeTokens s !! token with
    | Some data => if decide (expiresAt data < now) then None else Some data
    | None => None
    end.
Proof.
  unfold cleanup. simpl.
  rewrite (map_fold_entrywise _
             (λ _ data, if decide (expiresAt data < now) then None else Some data)).
  - by destruct (activeTokens s !! token).
  - intros k a acc Hk. case_decide; [apply lookup_delete_eq | done].
  - intros k a acc k' Hne. case_decide; [by apply lookup_delete_ne | done].
  - done.
Qed.

(** X7. A token that was issued validates to its swarm, leaving the state
    as it is, at every time up to 24 hours after [now2], the clock reading
    taken when the token is stored (the rate limit is tested at the earlier
    reading [now]); later the lookup fails and removes the binding, after
    which the token is unknown at every time. *)
Theorem token_round_trip (s : t) (swarm : string) (now now2 : Z) (rnd : string) :
  let s1 := snd (generateToken s swarm now now2 rnd) in
  (length (recentGenerations s swarm now) < 5)%nat →
  (∀ t, t ≤ now2 + 86400000 → validateToken s1 rnd t = (Some swarm, s1)) ∧
  (∀ t, now2 + 86400000 < t →
     fst (validateToken s1 rnd t) = None ∧
     activeTokens (snd (validateToken s1 rnd t)) !! rnd = None ∧
     ∀ t', validateToken (snd (validateToken s1 rnd t)) rnd t' =
             (None, snd (validateToken s1 rnd t))).
Proof.
  intros s1 Hlt.
  destruct (generateToken_ok s swarm now now2 rnd Hlt) as (_ & _ & Htok).
  fold s1 in Htok.
  change TOKEN_TTL_MS with 86400000 in Htok. split.
  - intros t Ht. unfold validateToken. rewrite Htok. simpl.
    by rewrite decide_False by lia.
  - intros t Ht.
    assert (Hval : validateToken s1 rnd t =
                     (None, mk (delete rnd (activeTokens s1)) (tokenGenerationLog s1))).
    { unfold validateToken. rewrite Htok. simpl. by rewrite decide_True by lia. }
    rewrite Hval. simpl. rewrite lookup_delete_eq.
    split; [done|]. split; [done|]. intros t'.
    unfold validateToken. simpl. by rewrite lookup_delete_eq.
Qed.

Lemma token_round_trip_witness :
  validateToken (snd (generateToken init "S" 1000 1003 "ABC123")) "ABC123" 86401003 =
    (Some "S", snd (generateToken init "S" 1000 1003 "ABC123")).
Proof.
  refine (proj1 (token_round_trip init "S" 1000 1003 "ABC123" _) 86401003 _).
  - change (recentGenerations init "S" 1000) with (@nil Z). simpl. lia.
  - lia.
Defined.

(** X8. [cleanup] removes exactly the bindings whose expiry lies before
    [now] and leaves the issuance history alone; right after it, validating
    any token at [now] finds nothing left to evict. *)
Theorem token_cleanup_evicts_expired (s : t) (now : Z) (token : string) :
  activeTokens (cleanup s now) !! token =
    match activeTokens s !! token with
    | Some data => if decide (expiresAt data < now) then None else Some data
    | None => None
    end ∧
  tokenGenerationLog (cleanup s now) = tokenGenerationLog s ∧
  validateToken (cleanup s now) token now =
    (tok_swarmId <$> activeTokens (cleanup s now) !! token, cleanup s now).
Proof.
  split; [apply auth_cleanup_lookup|]. split; [done|].
  unfold validateToken. rewrite auth_cleanup_lookup.
  destruct (activeTokens s !! token) as [data|]; [|done].
  destruct (decide (expiresAt data < now)); [done|].
  by rewrite decide_False by done.
Qed.

(** X9. Whatever calls are made, in whatever order and for whatever
    swarms, the issuance history kept for a swarm holds between one and
    five time stamps. *)
Theorem generation_log_is_bounded (ops : list Op) (swarm : string) (l : list Z) :
  tokenGenerationLog (run init ops) !! swarm = Some l →
  (1 ≤ length l ≤ 5)%nat.
Proof.
  assert (Hstep : ∀ s op,
    map_Forall (λ _ l, (1 ≤ length l ≤ 5)%nat) (tokenGenerationLog s) →
    map_Forall (λ _ l, (1 ≤ length l ≤ 5)%nat) (tokenGenerationLog (step s op))).
  { intros s [sw now now2 rnd|tok now|now] Hs; simpl.
    - unfold generateToken. case_decide as Hlen; [done|]. simpl.
      apply map_Forall_insert_2; [|done]. rewrite length_app. simpl. lia.
    - unfold validateToken. destruct (activeTokens s !! tok); [|done].
      by case_decide.
    - done. }
  assert (Hrun : ∀ s,
    map_Forall (λ _ l, (1 ≤ length l ≤ 5)%nat) (tokenGenerationLog s) →
    map_Forall (λ _ l, (1 ≤ length l ≤ 5)%nat) (tokenGenerationLog (run s ops))).
  { induction ops as [|op ops IH]; intros s Hs; [done|].
    simpl. apply IH. by apply Hstep. }
  intros Hl. apply (Hrun init (map_Forall_empty _) swarm l Hl).
Qed.

Lemma generation_log_is_bounded_witness :
  ∃ l, tokenGenerationLog
         (run init [Generate "S" 0 1 "AAAAAA"; Generate "S" 70000 70001 "BBBBBB";
                    Validate "AAAAAA" 80000; Cleanup 90000]) !! "S" = Some l ∧
       (1 ≤ length l ≤ 5)%nat.
Proof.
  destruct (tokenGenerationLog (run init _) !! "S") as [l|] eqn:E;
    [|exfalso; vm_compute in E; discriminate E].
  exists l. split; [reflexivity|].
  exact (generation_log_is_bounded _ "S" l E).
Defined.

End token_extras.

(** ** Further properties of the device registry *)

Section registry_extras.
Import DeviceManager.

Lemma Z_or_0 (x : Z) : Z_or x 0 = x.
Proof. unfold Z_or. by destruct (decide (x = 0)). Qed.

Lemma heartbeat_lookup (m : gmap string DeviceInfo) (id : string)
    (data : option Z) (t : Z) (d : DeviceInfo) :
  m !! id = Some d → heartbeat m id data t !! id = Some (beat t data d).
Proof. intros Hd. unfold heartbeat. by rewrite Hd, lookup_insert_eq. Qed.

(** X10. The score and the completed-job count of a device survive its
    re-registration, which otherwise rewrites the record (ONLINE, fresh
    time stamps, new name and capabilities); a device that registers for
    the first time, or again after the sweep has deleted it, starts from
    zero. *)
Theorem score_survives_reregistration (m : gmap string DeviceInfo) (id name : string)
    (caps : DeviceCapabilities) (swarm : string) (now : Z) (score : Qc)
    (d : DeviceInfo) :
  m !! id = Some d →
  (∃ d', register (updateScore m id score) id name caps swarm now !! id = Some d' ∧
     opsScore d' = score ∧ totalJobsCompleted d' = totalJobsCompleted d ∧
     status d' = ONLINE ∧ lastHeartbeat d' = now ∧ capabilities d' = caps ∧
     dev_name d' = name) ∧
  (300000 < now - lastHeartbeat d →
   ∃ d', register (cleanup (updateScore m id score) now) id name caps swarm now !! id
           = Some d' ∧
         opsScore d' = Q2Qc 0 ∧ totalJobsCompleted d' = 0) ∧
  (∀ other, other ≠ id →
     register (updateScore m id score) id name caps swarm now !! other = m !! other).
Proof.
  intros Hd.
  assert (Hup : updateScore m id score !! id = Some (set_opsScore score d)).
  { unfold updateScore. by rewrite Hd, lookup_insert_eq. }
  split; [|split].
  - unfold register. rewrite lookup_insert_eq, Hup. eexists. split; [reflexivity|].
    simpl. by rewrite Qc_or_0, Z_or_0.
  - intros Hold. unfold register. rewrite lookup_insert_eq.
    rewrite cleanup_lookup, Hup. simpl.
    rewrite decide_True by (unfold DELETE_THRESHOLD; lia).
    eexists. split; [reflexivity|]. done.
  - intros other Hne. unfold register, updateScore. rewrite Hd.
    by rewrite !lookup_insert_ne.
Qed.

Lemma score_survives_reregistration_witness :
  opsScore <$>
    (register (updateScore registryDisabled "D" (Qc_of_Z 7000))
              "D" "phone" (mkCaps 2 4 false None) "S" 5000 !! "D")
  = Some (Qc_of_Z 7000).
Proof.
  destruct (registryDisabled !! "D") as [d|] eqn:E;
    [|exfalso; vm_compute in E; discriminate E].
  destruct (proj1 (score_survives_reregistration registryDisabled "D" "phone"
                     (mkCaps 2 4 false None) "S" 5000 (Qc_of_Z 7000) d E))
    as (d' & -> & Hsc & _).
  simpl. by rewrite Hsc.
Defined.

(** X11. A heartbeat at time [t] keeps a device out of the sweep for the
    next 60 seconds: a sweep at any [now] with [now - t ≤ 60000] leaves the
    record exactly as the heartbeat left it, and that record is never
    OFFLINE. *)
Theorem heartbeat_keeps_alive (m : gmap string DeviceInfo) (id : string)
    (data : option Z) (t now : Z) (d : DeviceInfo) :
  m !! id = Some d → now - t ≤ 60000 →
  cleanup (heartbeat m id data t) now !! id = Some (beat t data d) ∧
  lastHeartbeat (beat t data d) = t ∧
  status (beat t data d) ≠ OFFLINE.
Proof.
  intros Hd Hnow. pose proof (beat_fields t data d) as (Hhb & Hoff & _).
  split; [|by split].
  rewrite cleanup_lookup, (heartbeat_lookup m id data t d Hd), Hhb.
  unfold DELETE_THRESHOLD, OFFLINE_THRESHOLD.
  rewrite decide_False by lia. by rewrite decide_False by lia.
Qed.

Lemma heartbeat_keeps_alive_witness :
  status <$> (cleanup (heartbeat (cleanup registryDisabled 100000) "D" None 100000)
                      150000 !! "D") = Some DISABLED.
Proof.
  destruct (cleanup registryDisabled 100000 !! "D") as [d|] eqn:E;
    [|exfalso; vm_compute in E; discriminate E].
  rewrite (proj1 (heartbeat_keeps_alive _ "D" None 100000 150000 d E ltac:(lia))).
  vm_compute in E. injection E as <-. reflexivity.
Defined.

(** X12. A device that the sweep has set OFFLINE comes back ONLINE with its
    next heartbeat; a device that the sweep has deleted stays unknown: a
    heartbeat, a toggle or a score update for it changes nothing. *)
Theorem swept_device_revives_unless_deleted (m : gmap string DeviceInfo)
    (id : string) (data : option Z) (now t : Z) (d : DeviceInfo) :
  m !! id = Some d →
  (status d ≠ DISABLED → 60000 < now - lastHeartbeat d ≤ 300000 →
   status <$> (cleanup m now !! id) = Some OFFLINE ∧
   ∃ d', heartbeat (cleanup m now) id data t !! id = Some d' ∧
         status d' = ONLINE ∧ lastHeartbeat d' = t ∧ opsScore d' = opsScore d) ∧
  (300000 < now - lastHeartbeat d →
   cleanup m now !! id = None ∧
   heartbeat (cleanup m now) id data t = cleanup m now ∧
   (∀ enabled, toggleDevice (cleanup m now) id enabled = cleanup m now) ∧
   (∀ score, updateScore (cleanup m now) id score = cleanup m now)).
Proof.
  intros Hd. split.
  - intros Hs Hsil.
    assert (Hc : cleanup m now !! id = Some (set_status OFFLINE d)).
    { rewrite cleanup_lookup, Hd. unfold DELETE_THRESHOLD, OFFLINE_THRESHOLD.
      rewrite decide_False by lia. by rewrite decide_True by (split; [done|lia]). }
    split; [by rewrite Hc|].
    rewrite (heartbeat_lookup _ id data t _ Hc). eexists. split; [reflexivity|].
    pose proof (beat_fields t data (set_status OFFLINE d))
      as (Hhb & _ & _ & _ & Hon & Hsc & _).
    split; [apply Hon; by left|]. by split.
  - intros Hsil.
    assert (Hc : cleanup m now !! id = None).
    { rewrite cleanup_lookup, Hd.
      by rewrite decide_True by (unfold DELETE_THRESHOLD; lia). }
    split; [done|]. unfold heartbeat, toggleDevice, updateScore. by rewrite Hc.
Qed.

Lemma swept_device_revives_witness :
  let m := register ∅ "D" "laptop" (mkCaps 4 8 false None) "S" 0 in
  status <$> (heartbeat (cleanup m 90000) "D" None 95000 !! "D") = Some ONLINE.
Proof.
  intros m.
  destruct (m !! "D") as [d|] eqn:E; [|exfalso; vm_compute in E; discriminate E].
  assert (Hf : status d = ONLINE ∧ lastHeartbeat d = 0).
  { vm_compute in E. injection E as <-. by split. }
  destruct Hf as [Hs Hhb].
  destruct (proj1 (swept_device_revives_unless_deleted m "D" None 90000 95000 d E))
    as (_ & d' & -> & Hon & _).
  - rewrite Hs. discriminate.
  - rewrite Hhb. lia.
  - simpl. by rewrite Hon.
Defined.

(** X13. Sweeping twice at the same time is sweeping once. *)
Theorem cleanup_is_idempotent (m : gmap string DeviceInfo) (now : Z) :
  cleanup (cleanup m now) now = cleanup m now.
Proof.
  apply map_eq. intros id. rewrite (cleanup_lookup (cleanup m now)), cleanup_lookup.
  destruct (m !! id) as [d|]; [|done].
  destruct (decide (DELETE_THRESHOLD < now - lastHeartbeat d)) as [|Hnd]; [done|].
  destruct (decide (status d ≠ DISABLED ∧ OFFLINE_THRESHOLD < now - lastHeartbeat d))
    as [[Hs Hoff]|Hno].
  - simpl. rewrite decide_False by done.
    rewrite decide_True by (split; [discriminate|done]). done.
  - rewrite decide_False by done. by rewrite decide_False by done.
Qed.

Lemma foldl_comm_acc {A B} (f : B → A → B) (l : list A) (b : B) (x : A) :
  (∀ b x y, f (f b x) y = f (f b y) x) →
  foldl f (f b x) l = f (foldl f b l) x.
Proof.
  intros Hc. revert b. induction l as [|y l IH]; intros b; simpl; [done|].
  by rewrite <-IH, Hc.
Qed.

Lemma foldl_comm_perm {A B} (f : B → A → B) (l k : list A) :
  (∀ b x y, f (f b x) y = f (f b y) x) →
  l ≡ₚ k → ∀ b, foldl f b l = foldl f b k.
Proof.
  intros Hc. induction 1 as [|x l k _ IH|x y l|l k j _ IH1 _ IH2]; intros b; simpl.
  - done.
  - apply IH.
  - by rewrite Hc.
  - by rewrite IH1.
Qed.

Lemma addResources_comm (acc : SwarmResources) (x y : DeviceInfo) :
  addResources (addResources acc x) y = addResources (addResources acc y) x.
Proof.
  unfold addResources.
  destruct (decide (status x = ONLINE ∨ status x = BUSY ∨ status x = REGISTERED));
    destruct (decide (status y = ONLINE ∨ status y = BUSY ∨ status y = REGISTERED));
    try done.
  simpl. destruct (gpuAvailable (capabilities x)), (gpuAvailable (capabilities y));
    f_equal; lia.
Qed.

(** The devices of a swarm after one record was written: the record, if it
    belongs to the swarm, and the devices filed under the other keys. *)
Lemma getDevicesBySwarm_insert (m : gmap string DeviceInfo) (id : string)
    (d : DeviceInfo) (swarm : string) :
  getDevicesBySwarm (<[id := d]> m) swarm ≡ₚ
    (if decide (swarmId d = Some swarm) then [d] else []) ++
    getDevicesBySwarm (delete id m) swarm.
Proof.
  unfold getDevicesBySwarm.
  rewrite <-insert_delete_eq.
  rewrite (map_to_list_insert (delete id m) id d) by apply lookup_delete_eq.
  rewrite fmap_cons, filter_cons. simpl. by case_decide.
Qed.

Lemma getAvailableResources_insert (m : gmap string DeviceInfo) (id : string)
    (d : DeviceInfo) (swarm : string) :
  getAvailableResources (<[id := d]> m) swarm =
    if decide (swarmId d = Some swarm)
    then addResources (getAvailableResources (delete id m) swarm) d
    else getAvailableResources (delete id m) swarm.
Proof.
  unfold getAvailableResources.
  rewrite (foldl_comm_perm _ _ _ addResources_comm (getDevicesBySwarm_insert m id d swarm)).
  case_decide; simpl; [|done].
  apply foldl_comm_acc, addResources_comm.
Qed.

(** X14. The capacity of a swarm counts a device that registers under a
    new identifier once: one more device, its cores and memory, its GPU if
    it has one; the capacity of every other swarm is unchanged. *)
Theorem new_device_adds_capacity (m : gmap string DeviceInfo) (id name : string)
    (caps : DeviceCapabilities) (swarm : string) (now : Z) :
  m !! id = None →
  let r := getAvailableResources m swarm in
  getAvailableResources (register m id name caps swarm now) swarm =
    mkResources (totalCores r + cpuCores caps) (totalMemory r + memoryGB caps)
                (totalGPUs r + (if gpuAvailable caps then 1 else 0))
                (onlineCount r + 1) ∧
  (∀ other, other ≠ swarm →
     getAvailableResources (register m id name caps swarm now) other =
       getAvailableResources m other).
Proof.
  intros Hfresh r. unfold register. rewrite Hfresh. simpl. split.
  - rewrite getAvailableResources_insert. simpl. rewrite decide_True by done.
    rewrite delete_id by done. fold r. unfold addResources. simpl.
    destruct (gpuAvailable caps); f_equal; lia.
  - intros other Hne. rewrite getAvailableResources_insert. simpl.
    rewrite decide_False by congruence. by rewrite delete_id.
Qed.

Lemma new_device_adds_capacity_witness :
  onlineCount (getAvailableResources
                 (register registryDisabled "E" "rig" (mkCaps 8 32 true None) "S" 10)
                 "S") =
    onlineCount (getAvailableResources registryDisabled "S") + 1.
Proof.
  rewrite (proj1 (new_device_adds_capacity registryDisabled "E" "rig"
                    (mkCaps 8 32 true None) "S" 10 eq_refl)).
  reflexivity.
Defined.

(** X15. Disabling a device, or its going OFFLINE, takes exactly its own
    contribution out of the capacity of its swarm: adding the device back
    to the capacity computed without it gives the capacity computed with
    it. *)
Theorem disabled_device_leaves_capacity (m : gmap string DeviceInfo) (id : string)
    (d : DeviceInfo) (swarm : string) (st : DeviceConnectionStatus) :
  m !! id = Some d → swarmId d = Some swarm →
  st = DISABLED ∨ st = OFFLINE →
  addResources (getAvailableResources (<[id := set_status st d]> m) swarm) d =
    getAvailableResources m swarm ∧
  (st = DISABLED → toggleDevice m id false = <[id := set_status st d]> m).
Proof.
  intros Hd Hsw Hst. split.
  - rewrite <-(insert_id m id d Hd) at 2.
    rewrite !getAvailableResources_insert. simpl. rewrite !decide_True by done.
    f_equal. unfold addResources at 1. simpl.
    rewrite decide_False; [done|].
    intros [H|[H|H]]; destruct Hst as [-> | ->]; discriminate H.
  - intros ->. unfold toggleDevice. by rewrite Hd.
Qed.

Lemma disabled_device_leaves_capacity_witness :
  let m := register ∅ "D" "laptop" (mkCaps 4 8 false None) "S" 0 in
  onlineCount (getAvailableResources (toggleDevice m "D" false) "S") + 1 =
    onlineCount (getAvailableResources m "S").
Proof.
  intros m.
  destruct (m !! "D") as [d|] eqn:E; [|exfalso; vm_compute in E; discriminate E].
  assert (Hf : swarmId d = Some "S" ∧ status d = ONLINE).
  { vm_compute in E. injection E as <-. by split. }
  destruct Hf as [Hsw Hs].
  destruct (disabled_device_leaves_capacity m "D" d "S" DISABLED E Hsw
              ltac:(by left)) as [Hcap Htog].
  rewrite (Htog eq_refl), <-Hcap. unfold addResources.
  rewrite decide_True by (left; exact Hs). reflexivity.
Defined.

End registry_extras.

(** ** Further properties of the coordinator *)

Section coordinator_extras.
Import SwarmCoordinator.

(** X16. In every state a coordinator reaches, whatever messages, socket
    closes and alarms it has seen, every quota satisfies
    [0 ≤ activeJobs ≤ maxConcurrent]. *)
Theorem coordinator_quota_bounds (id : string) (evs : list Event) (k : string)
    (q : DeviceJobQuota) :
  quotas (run (init id) evs) !! k = Some q →
  0 ≤ activeJobs q ≤ maxConcurrent q.
Proof.
  intros Hq. exact (wf_quota_bounds _ (cwf_run evs _ (cwf_init id)) k q Hq).
Qed.

Lemma coordinator_quota_bounds_witness :
  ∃ q, quotas (run (init "S") sampleEvents) !! "D" = Some q ∧
       0 ≤ activeJobs q ≤ maxConcurrent q.
Proof.
  destruct (quotas (run (init "S") sampleEvents) !! "D") as [q|] eqn:E;
    [|exfalso; vm_compute in E; discriminate E].
  exists q. split; [reflexivity|].
  exact (coordinator_quota_bounds "S" sampleEvents "D" q E).
Defined.

(** X17. In every state a coordinator reaches, a stored device record is
    filed under its own identifier, carries the swarm identifier of the
    coordinator, and has a quota in the scheduler. *)
Theorem stored_devices_are_consistent (id : string) (evs : list Event) (k : string)
    (d : DeviceInfo) :
  let st := run (init id) evs in
  devices st !! k = Some d →
  dev_id d = k ∧ swarmId d = Some (self_id st) ∧ is_Some (quotas st !! k).
Proof.
  intros st Hd. pose proof (cwf_run evs _ (cwf_init id)) as Hwf. fold st in Hwf.
  destruct (wf_device_key _ Hwf k d Hd) as [H1 H2].
  split; [done|]. split; [done|]. apply (wf_device_quota _ Hwf). by rewrite Hd.
Qed.

Lemma stored_devices_are_consistent_witness :
  ∃ d, devices (run (init "S") sampleEvents) !! "D" = Some d ∧ dev_id d = "D".
Proof.
  destruct (devices (run (init "S") sampleEvents) !! "D") as [d|] eqn:E;
    [|exfalso; vm_compute in E; discriminate E].
  exists d. split; [reflexivity|].
  exact (proj1 (stored_devices_are_consistent "S" sampleEvents "D" d E)).
Defined.

Lemma getJobBatchFuel_mono (fuel : nat) (st : Storage) (device : DeviceInfo)
    (rnd : nat → Draw) (r : list Job * Storage) :
  getJobBatchFuel fuel st device rnd = Some r →
  getJobBatchFuel (S fuel) st device rnd = Some r.
Proof.
  revert st. induction fuel as [|fuel IH]; intros st; [done|].
  rewrite (getJobBatchFuel_S (S fuel)), (getJobBatchFuel_S fuel).
  destruct (quotas st !! dev_id device) as [quota|]; [|apply IH].
  cbv zeta. case_decide; [done|]. case_decide; [apply IH|done].
Qed.

(** X18. The recursion of [getJobBatchForDevice] ends: after the
    registration of an unknown device and the refill of an empty queue the
    call returns, so three levels give the result and more levels give the
    same. *)
Theorem coordinator_batch_terminates (fuel : nat) (st : Storage)
    (device : DeviceInfo) (rnd : nat → Draw) :
  getJobBatchFuel (3 + fuel) st device rnd =
    Some (getJobBatchForDevice st device rnd).
Proof.
  destruct (getJobBatchFuel_total 0 st device rnd) as (q & tk & st' & Hrun & _).
  change (3 + 0)%nat with 3%nat in Hrun.
  unfold getJobBatchForDevice. rewrite Hrun.
  change (default ([], st) (Some (tk, st'))) with (tk, st').
  induction fuel as [|fuel IH]; [exact Hrun|].
  change (3 + S fuel)%nat with (S (3 + fuel)). by apply getJobBatchFuel_mono.
Qed.

(** What the preparation of a batch leaves alone. *)
Lemma prepared_frame (st : Storage) (device : DeviceInfo) (rnd : nat → Draw) :
  devices (prepared st device rnd) = devices st ∧
  runState (prepared st device rnd) = runState st ∧
  completed (prepared st device rnd) = completed st ∧
  (is_Some (quotas st !! dev_id device) →
   quotas (prepared st device rnd) = quotas st ∧
   weights (prepared st device rnd) = weights st).
Proof.
  unfold prepared.
  destruct (quotas st !! dev_id device) as [quota|] eqn:Hq.
  - rewrite Hq. unfold generateJobs.
    repeat case_decide; simpl; repeat split; done.
  - rewrite registerDeviceInScheduler_quota. unfold generateJobs.
    repeat case_decide; simpl; repeat split; done.
Qed.





Lemma getJobBatchForDevice_devices (st : Storage) (device : DeviceInfo)
    (rnd : nat → Draw) :
  devices (snd (getJobBatchForDevice st device rnd)) = devices st ∧
  runState (snd (getJobBatchForDevice st device rnd)) = runState st ∧
  completed (snd (getJobBatchForDevice st device rnd)) = completed st ∧
  (is_Some (quotas st !! dev_id device) →
   weights (snd (getJobBatchForDevice st device rnd)) = weights st).
Proof.
  destruct (prepared_frame st device rnd) as (Hd & Hr & Hc & Hq).
  destruct (getJobBatchForDevice_result st device rnd)
    as (quota & _ & [(_ & ->) | (_ & tk & q' & -> & _)]); simpl;
    (split; [done|]); (split; [done|]); (split; [done|]);
    intros Hs; by destruct (Hq Hs).
Qed.

Lemma handleJobRequest_frame (st : Storage) (pid : string) (rnd : nat → Draw) :
  devices (snd (handleJobRequest st pid rnd)) = devices st ∧
  completed (snd (handleJobRequest st pid rnd)) = completed st.
Proof.
  unfold handleJobRequest.
  destruct (runState st) as [[]|]; try done.
  destruct (devices st !! pid) as [d|]; [|done]. case_decide; [done|].
  by destruct (getJobBatchForDevice_devices st d rnd) as (? & _ & ? & _).
Qed.

(** The events that set the status of device [id] to ONLINE whatever it
    was: its registration and its being enabled. *)
Local Abbreviation coordinator_reenables id ev :=
  (match ev with
   | OnMessage pid (DeviceRegister _ _) _ => pid = id
   | OnMessage _ (ToggleDevice id' true) _ => id' = id
   | _ => False
   end).

Lemma coordinator_disabled_step (st : Storage) (ev : Event) (id : string) :
  (∀ d, devices st !! id = Some d → status d = DISABLED) →
  ¬ coordinator_reenables id ev →
  ∀ d', devices (step st ev) !! id = Some d' → status d' = DISABLED.
Proof.
  intros Hdis Hev d'. destruct ev as [pid msg env|pid|now]; simpl.
  - destruct msg as [name caps|data| |chunk err dur|r|v|score|i en| |]; simpl.
    + rewrite lookup_insert_ne by done. apply Hdis.
    + unfold handleHeartbeat. destruct (devices st !! pid) as [d|] eqn:Hd; [|apply Hdis].
      simpl. destruct (decide (pid = id)) as [->|Hne].
      * rewrite lookup_insert_eq. intros [= <-]. apply beat_status_disabled. by apply Hdis.
      * rewrite lookup_insert_ne by done. apply Hdis.
    + pose proof (handleJobRequest_frame st pid (env_jobs env)) as [Hd _].
      destruct (handleJobRequest st pid (env_jobs env)) as [b st']. simpl in *.
      rewrite Hd. apply Hdis.
    + unfold handleJobComplete.
      assert (Hrel : devices (releaseJobSlot st pid dur) = devices st).
      { unfold releaseJobSlot. destruct (quotas st !! pid); [|done]. by case_decide. }
      destruct err; [rewrite Hrel; apply Hdis|].
      set (st2 := put_completed _ _).
      assert (Hd2 : devices st2 = devices st) by (subst st2; simpl; exact Hrel).
      clearbody st2.
      destruct (devices st2 !! pid) as [d|] eqn:Hd; [|rewrite Hd2; apply Hdis].
      cbn [devices put_device]. rewrite Hd2. rewrite Hd2 in Hd.
      destruct (decide (pid = id)) as [->|Hne].
      * rewrite lookup_insert_eq. intros [= <-]. simpl. by apply Hdis.
      * rewrite lookup_insert_ne by done. apply Hdis.
    + apply Hdis.
    + apply Hdis.
    + unfold handleBenchmarkResult.
      destruct (devices st !! pid) as [d|] eqn:Hd; [|apply Hdis].
      simpl. destruct (decide (pid = id)) as [->|Hne].
      * rewrite lookup_insert_eq. intros [= <-]. simpl. by apply Hdis.
      * rewrite lookup_insert_ne by done. apply Hdis.
    + unfold handleToggleDevice.
      destruct (devices st !! i) as [d|] eqn:Hd; [|apply Hdis].
      simpl. destruct (decide (i = id)) as [->|Hne].
      * rewrite lookup_insert_eq. intros [= <-]. by destruct en.
      * rewrite lookup_insert_ne by done. apply Hdis.
    + unfold handleGenerateToken. case_decide; simpl; apply Hdis.
    + apply Hdis.
  - unfold handleDisconnect. destruct (devices st !! pid) as [d|] eqn:Hd; [|apply Hdis].
    case_decide as Hs; [|apply Hdis]. simpl.
    destruct (decide (pid = id)) as [->|Hne].
    + exfalso. apply Hs. by apply Hdis.
    + rewrite lookup_insert_ne by done. apply Hdis.
  - change (map_fold (sweepEntry now) (devices st) (devices st))
      with (DeviceManager.cleanup (devices st) now).
    rewrite cleanup_lookup. destruct (devices st !! id) as [d|] eqn:Hd; [|done].
    pose proof (Hdis d eq_refl) as Hs.
    destruct (decide (DeviceManager.DELETE_THRESHOLD < now - lastHeartbeat d)); [done|].
    rewrite decide_False by (intros [? _]; done). by intros [= <-].
Qed.

(** X20. In the coordinator a DISABLED device stays DISABLED, or is deleted
    by the alarm, through every sequence of events that contains neither
    its own registration nor its being enabled: heartbeats, job requests
    and completions, benchmark results, the close of its socket and the
    alarm do not change the status. *)
Theorem coordinator_disabled_is_sticky (st : Storage) (evs : list Event)
    (id : string) (d : DeviceInfo) :
  devices st !! id = Some d → status d = DISABLED →
  Forall (λ ev, ¬ coordinator_reenables id ev) evs →
  ∀ d', devices (run st evs) !! id = Some d' → status d' = DISABLED.
Proof.
  intros Hd Hs.
  assert (Hdis : ∀ d0, devices st !! id = Some d0 → status d0 = DISABLED).
  { intros d0 Hd0. congruence. }
  clear Hd Hs. revert st Hdis.
  induction evs as [|ev evs IH]; intros st Hdis Hevs; [exact Hdis|].
  apply Forall_cons in Hevs as [Hev Hevs]. simpl.
  apply IH; [|done]. by apply coordinator_disabled_step.
Qed.

Lemma coordinator_disabled_is_sticky_witness :
  let st := handleToggleDevice (run (init "S") (take 2 sampleEvents)) "D" false in
  status <$> (devices (run st [OnMessage "D" (HeartbeatMsg None) sampleEnv;
                               OnMessage "D" JobRequestBatch sampleEnv;
                               OnClose "D"; OnAlarm 100000]) !! "D")
    = Some DISABLED.
Proof.
  intros st.
  destruct (devices st !! "D") as [d|] eqn:E;
    [|exfalso; vm_compute in E; discriminate E].
  assert (Hs : status d = DISABLED).
  { vm_compute in E. injection E as <-. reflexivity. }
  destruct (devices (run st _) !! "D") as [d'|] eqn:E';
    [|exfalso; vm_compute in E'; discriminate E'].
  simpl. f_equal.
  refine (coordinator_disabled_is_sticky st _ "D" d E Hs _ d' E').
  repeat constructor; simpl; auto.
Defined.

Lemma handleJobComplete_weights (st : Storage) (pid : string) (err : bool)
    (dur : option Z) :
  weights (handleJobComplete st pid err dur) = weights st.
Proof.
  unfold handleJobComplete.
  assert (Hrel : weights (releaseJobSlot st pid dur) = weights st).
  { unfold releaseJobSlot. destruct (quotas st !! pid); [|done]. by case_decide. }
  destruct err; [done|]. set (st2 := put_completed _ _).
  assert (H2 : weights st2 = weights st) by (subst st2; simpl; exact Hrel).
  clearbody st2. by destruct (devices st2 !! pid).
Qed.

(** X21. The completed-jobs counter counts the completions reported
    without error, whoever reports them and whether or not the reporter
    held a job; a completion reported with an error leaves it alone. *)
Theorem completed_counts_successes
    (reports : list (string * bool * option Z)) (st : Storage) :
  let st' := foldl (λ acc r, handleJobComplete acc r.1.1 r.1.2 r.2) st reports in
  default 0 (completed st') =
    default 0 (completed st)
    + Z.of_nat (length (filter (λ r, r.1.2 = false) reports)) ∧
  queue st' = queue st ∧ weights st' = weights st.
Proof.
  revert st. induction reports as [|[[pid err] dur] rs IH]; intros st; simpl.
  { split; [lia|done]. }
  assert (Hrel : completed (releaseJobSlot st pid dur) = completed st ∧
                 queue (releaseJobSlot st pid dur) = queue st ∧
                 weights (releaseJobSlot st pid dur) = weights st).
  { unfold releaseJobSlot. destruct (quotas st !! pid); [|done]. by case_decide. }
  destruct Hrel as (Hc & Hq & Hw).
  destruct (IH (handleJobComplete st pid err dur)) as (IHc & IHq & IHw).
  rewrite IHc, IHq, IHw. clear IH IHc IHq IHw. rewrite filter_cons.
  set (n := length (filter (λ r, r.1.2 = false) rs)).
  unfold handleJobComplete. destruct err.
  - rewrite decide_False by done. fold n. rewrite Hc, Hq, Hw. done.
  - rewrite decide_True by done. rewrite length_cons. fold n.
    set (st2 := put_completed _ _).
    assert (H2 : default 0 (completed st2) = default 0 (completed st) + 1 ∧
                 queue st2 = queue st ∧ weights st2 = weights st).
    { subst st2. simpl. rewrite Hc, Hq, Hw, Z_or_0. done. }
    destruct H2 as (H2c & H2q & H2w). clearbody st2 n.
    destruct (devices st2 !! pid); simpl; rewrite ?H2c, ?H2q, ?H2w;
      (split; [lia|done]).
Qed.

(** X22. The snapshot after a throttle command: a throttle of [0] is
    reported as [40], the default, and every other value as it was set; the
    total is the completed plus the pending jobs; outside RUNNING the
    velocity and the active count are [0]; a run state that was never set
    is reported as STOPPED. *)
Theorem snapshot_after_set_throttle (st : Storage) (value : Z) :
  let snap := snapshot (handleSetThrottle st value) in
  globalThrottle (stats snap) = (if decide (value = 0) then 40 else value) ∧
  totalJobs (stats snap) = completedJobs (stats snap) + pendingJobs (stats snap) ∧
  pendingJobs (stats snap) = Z.of_nat (length (default [] (queue st))) ∧
  (snap_runState snap ≠ RUNNING →
   globalVelocity (stats snap) = 0 ∧ stats_activeJobs (stats snap) = 0) ∧
  (runState st = None → snap_runState snap = STOPPED).
Proof.
  intros snap. subst snap. unfold snapshot, handleSetThrottle. simpl.
  split; [done|]. split; [done|]. split; [done|]. split.
  - intros Hr. by rewrite !decide_False by done.
  - by intros ->.
Qed.

Lemma tally_resources (l : list DeviceInfo) (acc : Totals) :
  tot_resources (foldl tally acc l) =
    foldl DeviceManager.addResources (tot_resources acc) l.
Proof.
  revert acc. induction l as [|d l IH]; intros acc; simpl; [done|].
  rewrite IH. f_equal. unfold tally, DeviceManager.addResources.
  destruct (status d); simpl; try done;
    repeat case_decide; simpl; try done; intuition congruence.
Qed.

Lemma map_values_Forall {A} (P : A → Prop) (m : gmap string A) :
  map_Forall (λ _ x, P x) m → Forall P (snd <$> map_to_list m).
Proof.
  intros Hm. apply Forall_fmap, Forall_forall. intros [k x] Hkx.
  apply elem_of_map_to_list in Hkx. simpl. by apply (Hm k).
Qed.

(** X23. In every state a coordinator reaches, the resources of the
    snapshot are what [getAvailableResources] computes for the swarm from
    the same device table: the two ways of telling available devices from
    OFFLINE and DISABLED ones agree, and every stored device belongs to
    the swarm. *)
Theorem snapshot_resources_match_registry (id : string) (evs : list Event) :
  let st := run (init id) evs in
  resources (snapshot st) =
    DeviceManager.getAvailableResources (devices st) (self_id st).
Proof.
  intros st. pose proof (cwf_run evs _ (cwf_init id)) as Hwf. fold st in Hwf.
  unfold snapshot. simpl. rewrite tally_resources. simpl.
  unfold DeviceManager.getAvailableResources, DeviceManager.getDevicesBySwarm.
  rewrite filter_Forall_id; [done|].
  apply map_values_Forall. intros k d Hd.
  by destruct (wf_device_key _ Hwf k d Hd).
Qed.



(** X25. In the states a coordinator reaches, the weight map, and with it
    every device's share, is changed by registrations and benchmark
    results only.  The alarm in particular leaves the weight of a device
    in the total when it deletes the device. *)
Theorem weights_change_only_on_registration (id : string) (evs : list Event)
    (ev : Event) (device : DeviceInfo) :
  let st := run (init id) evs in
  match ev with
  | OnMessage _ (DeviceRegister _ _) _ | OnMessage _ (BenchmarkResult _) _ => False
  | _ => True
  end →
  weights (step st ev) = weights st ∧ share (step st ev) device = share st device.
Proof.
  intros st Hev. pose proof (cwf_run evs _ (cwf_init id)) as Hwf. fold st in Hwf.
  assert (Hw : weights (step st ev) = weights st).
  { destruct ev as [pid msg env|pid|now]; simpl; [| |done].
    - destruct msg as [name caps|data| |chunk err dur|r|v|score|i en| |]; simpl;
        try done.
      + unfold handleHeartbeat. by destruct (devices st !! pid).
      + unfold handleJobRequest.
        destruct (runState st) as [[]|]; simpl; try done.
        destruct (devices st !! pid) as [d|] eqn:Hd; simpl; [|done].
        case_decide; simpl; [done|].
        destruct (wf_device_key _ Hwf _ _ Hd) as [Hid _].
        pose proof (getJobBatchForDevice_devices st d (env_jobs env))
          as (_ & _ & _ & Hws).
        destruct (getJobBatchForDevice st d (env_jobs env)) as [b st']. simpl in *.
        apply Hws. rewrite Hid. apply (wf_device_quota _ Hwf). by rewrite Hd.
      + apply handleJobComplete_weights.
      + unfold handleToggleDevice. by destruct (devices st !! i).
      + unfold handleGenerateToken. by case_decide.
    - unfold handleDisconnect. destruct (devices st !! pid); [|done]. by case_decide. }
  split; [exact Hw|]. unfold share. by rewrite Hw.
Qed.

Lemma weights_change_only_on_registration_witness :
  weights (step (run (init "S") (take 4 sampleEvents)) (OnAlarm 1000000)) =
    weights (run (init "S") (take 4 sampleEvents)).
Proof.
  exact (proj1 (weights_change_only_on_registration "S" (take 4 sampleEvents)
                  (OnAlarm 1000000) dev4 I)).
Defined.

End coordinator_extras.

(** ** The Worker's routing *)

Section worker_extras.
Import Worker.

(** X26. A request is handed to a swarm only if it is not a preflight, its
    path is [/ws] and it names a non-empty [persistentId]; the swarm is then
    never the empty name: it is the token when the token is neither empty
    nor the text [null] or [undefined], and the [persistentId] otherwise. *)
Theorem upgrade_names_a_swarm (r : Request) (swarm : string) :
  fetch r = Upgrade swarm →
  swarm ≠ EmptyString ∧ method r ≠ "OPTIONS" ∧ pathname r = "/ws" ∧
  ∃ p, persistentId r = Some p ∧ p ≠ EmptyString ∧
       ((token r = Some swarm ∧ swarm ≠ "null" ∧ swarm ≠ "undefined") ∨
        (swarm = p ∧
         (token r = None ∨ token r = Some EmptyString ∨
          token r = Some "null" ∨ token r = Some "undefined"))).
Proof.
  unfold fetch. case_decide as Hm; [done|]. case_decide as Hh; [done|].
  case_decide as Hws; [|done].
  destruct (persistentId r) as [p|]; [|done]. case_decide as Hp; [done|].
  intros [= <-]. unfold swarmIdOf.
  destruct (token r) as [t|].
  - case_decide as Ht.
    + split; [done|]. split; [done|]. split; [done|].
      exists p. split; [done|]. split; [done|]. right. split; [done|].
      destruct Ht as [->|[->|[->| ->]]]; auto.
    + split; [intros ->; apply Ht; by left|]. split; [done|]. split; [done|].
      exists p. split; [done|]. split; [done|]. left.
      split; [done|]. split; intros ->; apply Ht; auto.
  - split; [done|]. split; [done|]. split; [done|].
    exists p. split; [done|]. split; [done|]. right. auto.
Qed.

Lemma upgrade_names_a_swarm_witness :
  fetch (mkRequest "GET" "/ws" (Some "host-1") (Some "null")) = Upgrade "host-1" ∧
  "host-1" ≠ EmptyString.
Proof.
  split; [reflexivity|].
  exact (proj1 (upgrade_names_a_swarm
                  (mkRequest "GET" "/ws" (Some "host-1") (Some "null")) "host-1"
                  eq_refl)).
Defined.

End worker_extras.
